(** * The calendar digest pipeline of [extractEvents.py]

    A shallow embedding of the event-extraction script: reading calendar
    files, consuming the expansion of recurring events under a per-file
    alarm, normalising start and end, filtering on the target date and
    rendering the text digest.

    Conventions of the embedding.
    - A Python [str] is a [string] (its UTF-8 bytes; byte order and
      code-point order agree on UTF-8, so [list.sort] on strings is the
      byte-wise lexicographic order).
    - A Python [int] is a [Z].
    - A [datetime.date] is its day number, a [datetime.time] is the number
      of microseconds since midnight, and a [datetime.datetime] is its
      wall-clock reading (day number and time of day folded into one
      microsecond count) together with its UTC offset, [None] for a naive
      value.  The year range 1..9999 of Python is not enforced.
    - Exceptions are values of [exn]; a computation runs in a state and
      exception monad whose state holds what outlives an exception: the
      console, the pending alarm, the files touched and the function's
      local variables.
    - The debug prints guarded by [DEBUG] change no value and are left
      out; the two unconditional warnings are in the console. *)

From Stdlib Require Import ZArith List String Ascii Bool Lia.
From Stdlib Require Import Permutation Sorted.
Import ListNotations.

Open Scope string_scope.
Open Scope list_scope.
Open Scope Z_scope.

(** ** Exceptions and results *)

Inductive exn : Type :=
| TimeoutError (msg : string)
| UnboundLocalError (var : string)
| AttributeError (msg : string)
| KeyError (key : string)
| ValueError (msg : string)
| OSError (msg : string)
| UnknownTimeZoneError (name : string)
| OtherException (msg : string).

Inductive result (A : Type) : Type :=
| Ok (a : A)
| Raise (e : exn).

Arguments Ok {A} a.
Arguments Raise {A} e.

Definition is_timeout (e : exn) : bool :=
  match e with TimeoutError _ => true | _ => false end.

(** ** Dates, times and datetimes *)

Definition US_PER_SECOND : Z := 1000000.
Definition US_PER_DAY : Z := 86400 * US_PER_SECOND.

(** [datetime.time(h, m, s, us)] *)
Definition mk_time (h m s us : Z) : Z :=
  ((h * 60 + m) * 60 + s) * US_PER_SECOND + us.

(** [time.min] and [time.max] *)
Definition time_min : Z := mk_time 0 0 0 0.
Definition time_max : Z := mk_time 23 59 59 999999.

Record datetime : Type := mk_datetime {
  wall : Z;                (* wall-clock microseconds *)
  utcoffset : option Z     (* microseconds east of UTC; None: naive *)
}.

(** [dt.date()], [dt.time()], [dt.hour], [dt.minute] *)
Definition dt_date (t : datetime) : Z := wall t / US_PER_DAY.
Definition dt_time (t : datetime) : Z := wall t mod US_PER_DAY.
Definition dt_hour (t : datetime) : Z := dt_time t / (3600 * US_PER_SECOND).
Definition dt_minute (t : datetime) : Z := (dt_time t / (60 * US_PER_SECOND)) mod 60.

(** [datetime.combine(d, t)]: a naive datetime *)
Definition combine (d t : Z) : datetime :=
  {| wall := d * US_PER_DAY + t; utcoffset := None |}.

(** [dt.replace(tzinfo=tz)] for a fixed-offset [tz] *)
Definition replace_tzinfo (t : datetime) (off : Z) : datetime :=
  {| wall := wall t; utcoffset := Some off |}.

(** A timezone of the database: the UTC offset in force at a UTC instant. *)
Definition tzinfo : Type := Z -> Z.

(** [pytz.UTC] *)
Definition UTC_offset : Z := 0.

Definition is_aware (t : datetime) : bool :=
  match utcoffset t with Some _ => true | None => false end.

(** The UTC instant of a datetime.  A naive value is read as system local
    time, as [astimezone] does; [local] gives the local offset at a
    wall-clock reading. *)
Definition utc_instant (local : Z -> Z) (t : datetime) : Z :=
  match utcoffset t with
  | Some off => wall t - off
  | None => wall t - local (wall t)
  end.

(** [tz.fromutc] and [dt.astimezone(tz)] *)
Definition fromutc (tz : tzinfo) (u : Z) : datetime :=
  {| wall := u + tz u; utcoffset := Some (tz u) |}.

Definition astimezone (local : Z -> Z) (t : datetime) (tz : tzinfo) : datetime :=
  fromutc tz (utc_instant local t).

(** ** Calendar components *)

(** The value of a [DTSTART] or [DTEND] property ([.dt]). *)
Inductive dt_value : Type :=
| DateVal (d : Z)
| DateTimeVal (t : datetime).

(** A [VEVENT] component, read as the script reads it. *)
Record vevent : Type := mk_vevent {
  SUMMARY : option string;
  LOCATION : option string;
  DTSTART : option dt_value;
  DTEND : option dt_value;
  RRULE : bool              (* 'RRULE' in event *)
}.

Definition calendar : Type := list vevent.

(** One [next()] on the expansion: an occurrence, or an exception raised
    while waiting for it (the alarm handler's among them). *)
Inductive step : Type :=
| Yield (ev : vevent)
| Throw (e : exn).

(** The dictionary appended to [filtered_events]. *)
Record event : Type := mk_event {
  title : string;
  location : string;
  start_time : datetime;
  end_time : datetime;
  is_recurring : bool
}.

(** ** The world outside the script *)

Record world : Type := mk_world {
  (* open(path).read() *)
  open_read : string -> result string;
  (* icalendar.Calendar.from_ical *)
  from_ical : string -> result calendar;
  (* pytz.timezone *)
  pytz_timezone : string -> result tzinfo;
  (* the clock read by datetime.now, as a UTC instant *)
  now_utc : Z;
  (* the system local offset used for naive datetimes *)
  local_utcoffset : Z -> Z;
  (* recurring_ical_events.of(cal).after(d): raises, or a lazy sequence *)
  recurring_events_after : calendar -> Z -> result (list step);
  (* client.chat.completions.create(...).choices[0].message.content of the
     n-th request of the run *)
  chat_completions_create : nat -> string -> Z -> result string;
  (* ics.Event(name=..., begin=..., end=..., location=...) for one
     occurrence: built, or the exception of the constructor *)
  ics_Event : event -> result unit;
  (* cal.serialize() of the calendar the occurrences were added to *)
  ics_serialize : list event -> result string;
  (* open(path, 'w') *)
  open_write : string -> result unit;
  (* f.write(text) on the file opened at the path *)
  file_write : string -> string -> result unit
}.

(** ** State and exception monad *)

Inductive console_line : Type :=
| TimeoutWarning (path : string)
| ProcessingError (path : string) (e : exn)
| WrittenTo (what path : string).

(** What happened to a file opened for writing: [open(path, 'w')] left it
    empty, then a text was written to it. *)
Inductive artifact : Type :=
| Truncated
| TextFile (content : string).

Record state : Type := mk_state {
  console : list console_line;
  alarm : option Z;                        (* seconds until SIGALRM *)
  opened : list string;                    (* paths opened for reading *)
  written : list (string * artifact);      (* files opened for writing
                                              and written, in order *)
  all_events : list event;                 (* local of the extraction *)
  filtered_events : option (list event)    (* local; None: not bound yet *)
}.

Definition M (A : Type) : Type := state -> result A * state.

Definition ret {A} (a : A) : M A := fun st => (Ok a, st).

Definition bind {A B} (c : M A) (k : A -> M B) : M B :=
  fun st =>
    match c st with
    | (Ok a, st') => k a st'
    | (Raise e, st') => (Raise e, st')
    end.

Definition raise {A} (e : exn) : M A := fun st => (Raise e, st).

Definition lift {A} (r : result A) : M A := fun st => (r, st).

Definition modify (f : state -> state) : M unit := fun st => (Ok tt, f st).

Definition gets {A} (f : state -> A) : M A := fun st => (Ok (f st), st).

Declare Scope py_scope.
Delimit Scope py_scope with py.
Notation "x <- c ;; k" := (bind c (fun x => k))
  (at level 61, c at next level, right associativity) : py_scope.
Notation "c ;; k" := (bind c (fun _ => k))
  (at level 61, right associativity) : py_scope.
Open Scope py_scope.

(** [try: body  except Exception as e: handler e  finally: final] *)
Definition try_except_finally (body : M unit) (handler : exn -> M unit)
    (final : M unit) : M unit :=
  fun st =>
    let '(r, st1) :=
      match body st with
      | (Ok tt, st') => (Ok tt, st')
      | (Raise e, st') => handler e st'
      end in
    match final st1 with
    | (Ok tt, st2) => (r, st2)
    | (Raise e, st2) => (Raise e, st2)
    end.

(** ** Module-level settings *)

Definition DAYS_TO_INCLUDE : Z := 1.
Definition ALARM_SECONDS : Z := 5.
Definition DEFAULT_TIMEZONE : string := "America/Los_Angeles".

(** [timeout_handler]: what the SIGALRM handler raises. *)
Definition timeout_handler : exn := TimeoutError "Event processing timed out".

(** Updates of one field of the state. *)
Definition with_console (st : state) (c : list console_line) : state :=
  {| console := c; alarm := alarm st; opened := opened st;
     written := written st; all_events := all_events st;
     filtered_events := filtered_events st |}.

Definition with_alarm (st : state) (a : option Z) : state :=
  {| console := console st; alarm := a; opened := opened st;
     written := written st; all_events := all_events st;
     filtered_events := filtered_events st |}.

Definition with_opened (st : state) (o : list string) : state :=
  {| console := console st; alarm := alarm st; opened := o;
     written := written st; all_events := all_events st;
     filtered_events := filtered_events st |}.

Definition with_written (st : state) (f : list (string * artifact)) : state :=
  {| console := console st; alarm := alarm st; opened := opened st;
     written := f; all_events := all_events st;
     filtered_events := filtered_events st |}.

Definition with_all_events (st : state) (l : list event) : state :=
  {| console := console st; alarm := alarm st; opened := opened st;
     written := written st; all_events := l;
     filtered_events := filtered_events st |}.

Definition with_filtered_events (st : state) (l : option (list event)) : state :=
  {| console := console st; alarm := alarm st; opened := opened st;
     written := written st; all_events := all_events st;
     filtered_events := l |}.

(** [signal.alarm(n)]: [n = 0] cancels the pending alarm. *)
Definition signal_alarm (n : Z) : M unit :=
  modify (fun st => with_alarm st (if n =? 0 then None else Some n)).

Definition print (l : console_line) : M unit :=
  modify (fun st => with_console st (console st ++ [l])).

Definition set_all_events (l : list event) : M unit :=
  modify (fun st => with_all_events st l).

Definition set_filtered_events (l : option (list event)) : M unit :=
  modify (fun st => with_filtered_events st l).

(** [with open(path, 'r') as file: file.read()] *)
Definition read_file (w : world) (path : string) : M string :=
  modify (fun st => with_opened st (opened st ++ [path])) ;;
  lift (open_read w path).

(** [open(path, 'w')]: raises, or leaves an empty file. *)
Definition open_for_writing (w : world) (path : string) : M unit :=
  lift (open_write w path) ;;
  modify (fun st => with_written st (written st ++ [(path, Truncated)])).

(** [f.write(text)] on the file opened at [path]. *)
Definition write_text (w : world) (path text : string) : M unit :=
  lift (file_write w path text) ;;
  modify (fun st => with_written st (written st ++ [(path, TextFile text)])).

(** ** Normalisation of one occurrence (lines 111-131) *)

(** [v.astimezone(tz)]: a [date] has no such method.  The
    [OverflowError] of a conversion that leaves the years 1 to 9999 is
    outside the embedding, which does not bound the years. *)
Definition py_astimezone (local : Z -> Z) (v : dt_value) (tz : tzinfo)
  : result dt_value :=
  match v with
  | DateTimeVal t => Ok (DateTimeVal (astimezone local t tz))
  | DateVal _ =>
      Raise (AttributeError "'datetime.date' object has no attribute 'astimezone'")
  end.

Definition normalize (w : world) (tz : tzinfo) (ev : vevent)
  : result (datetime * datetime) :=
  match DTSTART ev with
  | None => Raise (KeyError "DTSTART")
  | Some start_time =>
      let end_time :=
        match DTEND ev with Some e => e | None => start_time end in
      (* Convert to target timezone if necessary *)
      match
        match start_time with
        | DateTimeVal s =>
            match py_astimezone (local_utcoffset w) end_time tz with
            | Ok e => Ok (DateTimeVal (astimezone (local_utcoffset w) s tz), e)
            | Raise x => Raise x
            end
        | DateVal _ => Ok (start_time, end_time)
        end
      with
      | Raise x => Raise x
      | Ok (start_time, end_time) =>
          (* Handle all-day events (date objects) and datetime objects *)
          let start_time :=
            match start_time with
            | DateVal d => replace_tzinfo (combine d time_min) UTC_offset
            | DateTimeVal s => s
            end in
          let end_time :=
            match end_time with
            | DateVal d => replace_tzinfo (combine d time_max) UTC_offset
            | DateTimeVal e => e
            end in
          Ok (start_time, end_time)
      end
  end.

Definition get_default (o : option string) (default : string) : string :=
  match o with Some s => s | None => default end.

Definition make_event (ev : vevent) (start_time end_time : datetime) : event :=
  {| title := get_default (SUMMARY ev) "No Title";
     location := get_default (LOCATION ev) "";
     start_time := start_time;
     end_time := end_time;
     is_recurring := RRULE ev |}.

(** [filtered_events.append(d)]; the name is bound when the loop runs. *)
Definition append_filtered (e : event) : M unit :=
  fe <- gets filtered_events ;;
  match fe with
  | Some l => set_filtered_events (Some (l ++ [e]))
  | None => raise (UnboundLocalError "filtered_events")
  end.

(** ** The loop over the expansion (lines 107-148)

    The value returned is the part of the sequence that was never asked
    for: empty when the sequence ran out, the elements after the one that
    caused the [break] otherwise. *)
Fixpoint for_event_in_query (w : world) (tz : tzinfo) (end_date : Z)
    (query : list step) : M (list step) :=
  match query with
  | [] => ret []
  | Throw e :: _ => raise e
  | Yield ev :: rest =>
      times <- lift (normalize w tz ev) ;;
      let '(start_time, end_time) := times in
      (* Stop if we've reached events beyond our end date *)
      if end_date <? dt_date start_time then ret rest
      else
        append_filtered (make_event ev start_time end_time) ;;
        for_event_in_query w tz end_date rest
  end.

(** ** One input file (lines 82-157) *)

Definition try_body (w : world) (tz : tzinfo) (cal : calendar)
    (current_date end_date : Z) : M unit :=
  query <- lift (recurring_events_after w cal current_date) ;;
  set_filtered_events (Some []) ;;
  for_event_in_query w tz end_date query ;;
  ret tt.

Definition except_handler (path : string) (e : exn) : M unit :=
  if is_timeout e then print (TimeoutWarning path)
  else print (ProcessingError path e).

Definition process_file (w : world) (target_timezone path : string) : M unit :=
  calendar_data <- read_file w path ;;
  cal <- lift (from_ical w calendar_data) ;;
  tz <- lift (pytz_timezone w target_timezone) ;;
  let current_date := dt_date (fromutc tz (now_utc w)) in
  let end_date := current_date + DAYS_TO_INCLUDE in
  signal_alarm ALARM_SECONDS ;;
  try_except_finally
    (try_body w tz cal current_date end_date)
    (except_handler path)
    (signal_alarm 0) ;;
  fe <- gets filtered_events ;;
  match fe with
  | None => raise (UnboundLocalError "filtered_events")
  | Some l =>
      all <- gets all_events ;;
      set_all_events (all ++ l)
  end.

Fixpoint for_each_file (w : world) (target_timezone : string)
    (paths : list string) : M unit :=
  match paths with
  | [] => ret tt
  | path :: rest =>
      process_file w target_timezone path ;;
      for_each_file w target_timezone rest
  end.

(** ** [extract_recurring_events_ics] *)

Definition extract_recurring_events_ics (w : world)
    (ical_file_paths : list string) (target_timezone : string)
  : M (list event) :=
  let target_timezone :=
    if (target_timezone =? "")%string then DEFAULT_TIMEZONE
    else target_timezone in
  set_all_events [] ;;
  set_filtered_events None ;;
  for_each_file w target_timezone ical_file_paths ;;
  gets all_events.

(** ** Strings *)

Definition ascii_code (c : ascii) : Z := Z.of_N (N_of_ascii c).

(** [s[:n]], with Python's reading of a negative bound. *)
Definition py_slice_to (s : string) (n : Z) : string :=
  let len := Z.of_nat (String.length s) in
  let stop := if n <? 0 then Z.max 0 (len + n) else Z.min n len in
  substring 0 (Z.to_nat stop) s.

(** [str.isspace] on the ASCII range. *)
Definition is_space (c : ascii) : bool :=
  let n := ascii_code c in
  ((9 <=? n) && (n <=? 13)) || ((28 <=? n) && (n <=? 32)).

Fixpoint lstrip (s : string) : string :=
  match s with
  | String c r => if is_space c then lstrip r else s
  | EmptyString => EmptyString
  end.

Fixpoint rstrip (s : string) : string :=
  match s with
  | String c r =>
      let r' := rstrip r in
      if is_space c && (r' =? "")%string then EmptyString else String c r'
  | EmptyString => EmptyString
  end.

(** [s.strip()] *)
Definition strip (s : string) : string := lstrip (rstrip s).

(** [s.upper()] on the ASCII range. *)
Definition upper_char (c : ascii) : ascii :=
  let n := ascii_code c in
  if (97 <=? n) && (n <=? 122) then ascii_of_N (Z.to_N (n - 32)) else c.

Fixpoint upper (s : string) : string :=
  match s with
  | String c r => String (upper_char c) (upper r)
  | EmptyString => EmptyString
  end.

(** [sep.join(l)] *)
Fixpoint join (sep : string) (l : list string) : string :=
  match l with
  | [] => ""
  | [s] => s
  | s :: r => (s ++ sep ++ join sep r)%string
  end.

(** [l.sort()] on a list of strings: the order is total and two strings
    that compare equal are the same string, so the sorted list does not
    depend on the algorithm. *)
Fixpoint insert_sorted (s : string) (l : list string) : list string :=
  match l with
  | [] => [s]
  | x :: r => if String.leb s x then s :: l else x :: insert_sorted s r
  end.

Fixpoint sort_strings (l : list string) : list string :=
  match l with
  | [] => []
  | s :: r => insert_sorted s (sort_strings r)
  end.

(** The decimal digit [k] as a character, and a number below 100 or
    10000 zero-padded to two or four digits ([%H], [%M], [%d], [%m], [%Y]). *)
Definition digit_char (k : Z) : ascii := ascii_of_N (Z.to_N (48 + k)).

Definition two_digits (n : Z) : string :=
  String (digit_char (n / 10)) (String (digit_char (n mod 10)) "").

Definition four_digits (n : Z) : string :=
  (two_digits (n / 100) ++ two_digits (n mod 100))%string.

(** ** The calendar of [datetime] *)

Definition is_leap (y : Z) : bool :=
  (y mod 4 =? 0) && (negb (y mod 100 =? 0) || (y mod 400 =? 0)).

Definition DAYS_IN_MONTH : list Z :=
  [0; 31; 28; 31; 30; 31; 30; 31; 31; 30; 31; 30; 31].

Definition DAYS_BEFORE_MONTH : list Z :=
  [0; 0; 31; 59; 90; 120; 151; 181; 212; 243; 273; 304; 334].

Definition days_in_month (y m : Z) : Z :=
  if (m =? 2) && is_leap y then 29 else nth (Z.to_nat m) DAYS_IN_MONTH 0.

Definition days_before_year (y : Z) : Z :=
  let y' := y - 1 in y' * 365 + y' / 4 - y' / 100 + y' / 400.

Definition days_before_month (y m : Z) : Z :=
  nth (Z.to_nat m) DAYS_BEFORE_MONTH 0
  + (if (2 <? m) && is_leap y then 1 else 0).

(** The parsed fields of a date. *)
Record ymd : Type := mk_ymd { year : Z; month : Z; day : Z }.

(** [date(y, m, d).toordinal()], the day number used by [dt_date]. *)
Definition ymd2ord (d : ymd) : Z :=
  days_before_year (year d) + days_before_month (year d) (month d) + day d.

Definition MONTH_NAMES : list string :=
  [""; "January"; "February"; "March"; "April"; "May"; "June"; "July";
   "August"; "September"; "October"; "November"; "December"].

(** [%B] in the C locale *)
Definition month_name (m : Z) : string := nth (Z.to_nat m) MONTH_NAMES "".

(** ** [datetime.strptime(s, "%Y-%m-%d")]

    The format compiles to the regular expression
    [(\d\d\d\d)-(1[0-2]|0[1-9]|[1-9])-(3[01]|[12]\d|0[1-9]|[1-9]| [1-9])],
    matched at the start of the string with backtracking over the
    alternatives; text left after the match and a date that does not exist
    are both a [ValueError].  Digits are the ASCII digits. *)

Definition digit_val (c : ascii) : option Z :=
  let n := ascii_code c in
  if (48 <=? n) && (n <=? 57) then Some (n - 48) else None.

(** A character class [[lo-hi]] of digits. *)
Definition re_digit (lo hi : Z) (s : string) : option (Z * string) :=
  match s with
  | String c r =>
      match digit_val c with
      | Some v => if (lo <=? v) && (v <=? hi) then Some (v, r) else None
      | None => None
      end
  | EmptyString => None
  end.

Definition re_char (c : ascii) (s : string) : option string :=
  match s with
  | String c' r => if Ascii.eqb c c' then Some r else None
  | EmptyString => None
  end.

(** Two character classes in sequence, read as a two-digit number. *)
Definition re_digit2 (lo1 hi1 lo2 hi2 : Z) (s : string) : option (Z * string) :=
  match re_digit lo1 hi1 s with
  | Some (a, r) =>
      match re_digit lo2 hi2 r with
      | Some (b, r') => Some (10 * a + b, r')
      | None => None
      end
  | None => None
  end.

Definition re_space_digit (s : string) : option (Z * string) :=
  match re_char " "%char s with
  | Some r => re_digit 1 9 r
  | None => None
  end.

(** Alternation: the first alternative after which the rest of the
    pattern, [k], matches. *)
Fixpoint re_alt {R} (alts : list (string -> option (Z * string)))
    (k : Z -> string -> option R) (s : string) : option R :=
  match alts with
  | [] => None
  | p :: ps =>
      match p s with
      | Some (v, r) =>
          match k v r with
          | Some x => Some x
          | None => re_alt ps k s
          end
      | None => re_alt ps k s
      end
  end.

Definition re_Y (s : string) : option (Z * string) :=
  match re_digit2 0 9 0 9 s with
  | Some (a, r) =>
      match re_digit2 0 9 0 9 r with
      | Some (b, r') => Some (100 * a + b, r')
      | None => None
      end
  | None => None
  end.

Definition re_m_alts : list (string -> option (Z * string)) :=
  [re_digit2 1 1 0 2; re_digit2 0 0 1 9; re_digit 1 9].

Definition re_d_alts : list (string -> option (Z * string)) :=
  [re_digit2 3 3 0 1; re_digit2 1 2 0 9; re_digit2 0 0 1 9; re_digit 1 9;
   re_space_digit].

(** The match of the whole pattern: the three fields and what is left. *)
Definition re_Ymd (s : string) : option (Z * Z * Z * string) :=
  match re_Y s with
  | Some (y, r) =>
      match re_char "-"%char r with
      | Some r1 =>
          re_alt re_m_alts
            (fun m r2 =>
               match re_char "-"%char r2 with
               | Some r3 => re_alt re_d_alts (fun d r4 => Some (y, m, d, r4)) r3
               | None => None
               end) r1
      | None => None
      end
  | None => None
  end.

Definition strptime_Ymd (s : string) : result ymd :=
  match re_Ymd s with
  | None => Raise (ValueError "time data does not match format '%Y-%m-%d'")
  | Some (y, m, d, rest) =>
      if negb (rest =? "")%string then
        Raise (ValueError "unconverted data remains")
      else if (y <? 1) || (days_in_month y m <? d) then
        Raise (ValueError "date out of range")
      else Ok {| year := y; month := m; day := d |}
  end.

(** [dt.strftime("%B %d")] on the parsed date and [dt.strftime("%H:%M")]
    on a datetime. *)
Definition strftime_B_d (d : ymd) : string :=
  (month_name (month d) ++ " " ++ two_digits (day d))%string.

Definition strftime_H_M (t : datetime) : string :=
  (two_digits (dt_hour t) ++ ":" ++ two_digits (dt_minute t))%string.

(** ** [filter_events_by_date] (lines 164-181) *)

Definition filter_events_by_date (events : list event) (filter_date : string)
  : result (list event) :=
  match strptime_Ymd filter_date with
  | Raise e => Raise e
  | Ok d =>
      let filter_date := ymd2ord d in
      Ok (filter (fun event => dt_date (start_time event) =? filter_date) events)
  end.

(** ** [summarize_with_gpt] (lines 183-215)

    [n] counts the requests made so far: two requests for the same title
    need not get the same answer. *)

Definition try_except {A} (body : result A) (handler : exn -> result A)
  : result A :=
  match body with
  | Ok a => Ok a
  | Raise e => handler e
  end.

Definition summarize_with_gpt (w : world) (n : nat) (title : string)
    (max_length : Z) : result string :=
  try_except
    (match chat_completions_create w n title max_length with
     | Raise e => Raise e
     | Ok content =>
         let summary := strip content in
         let final_summary := py_slice_to summary max_length in
         Ok final_summary
     end)
    (fun e => Ok (py_slice_to title max_length)).

(** ** [format_events_for_text_file] (lines 217-243) *)

(** The test of line 221. *)
Definition is_all_day (event : event) : bool :=
  (dt_time (start_time event) =? time_min)
  && (dt_time (end_time event) =? time_max).

(** The loop of lines 220-229; [n] is the number of requests made before
    [events] are rendered. *)
Fixpoint for_event_in_events (w : world) (n : nat) (events : list event)
    (all_day_events timed_events : list string)
  : result (list string * list string) :=
  match events with
  | [] => Ok (all_day_events, timed_events)
  | event :: rest =>
      if is_all_day event then
        (* All-day event *)
        match summarize_with_gpt w n (title event) 22 with
        | Raise e => Raise e
        | Ok summary =>
            for_event_in_events w (S n) rest
              (all_day_events ++ [summary]) timed_events
        end
      else
        (* Timed event *)
        let start_time := strftime_H_M (start_time event) in
        match summarize_with_gpt w n (title event) 16 with
        | Raise e => Raise e
        | Ok summary =>
            for_event_in_events w (S n) rest
              all_day_events
              (timed_events ++ [(start_time ++ " " ++ summary)%string])
        end
  end.

Definition NEWLINE : string := String (ascii_of_N 10) "".

Definition format_events_for_text_file (w : world) (events : list event)
    (filter_date : string) : result string :=
  match for_event_in_events w 0 events [] [] with
  | Raise e => Raise e
  | Ok (all_day_events, timed_events) =>
      (* Sort all-day events alphabetically *)
      let all_day_events := sort_strings all_day_events in
      (* Sort timed events by start time *)
      let timed_events := sort_strings timed_events in
      (* Combine all-day events and timed events *)
      let formatted_events := timed_events ++ all_day_events in
      match strptime_Ymd filter_date with
      | Raise e => Raise e
      | Ok d =>
          let date_header := upper (strftime_B_d d) in
          let header := ("--- " ++ date_header ++ " ---" ++ NEWLINE)%string in
          Ok (header ++ join NEWLINE formatted_events)%string
      end
  end.

(** ** The script body (lines 260-302)

    The [ics] library is outside the script: building an [Event] and
    serialising the calendar are calls into the world, and so are opening
    a file for writing and writing to it; each can raise. *)

(** [events.sort(key=lambda x: x['start_time'])]: stable, by instant. *)
Fixpoint insert_by_start (local : Z -> Z) (e : event) (l : list event)
  : list event :=
  match l with
  | [] => [e]
  | x :: r =>
      if utc_instant local (start_time x) <? utc_instant local (start_time e)
      then x :: insert_by_start local e r
      else e :: l
  end.

Definition sort_by_start (local : Z -> Z) (l : list event) : list event :=
  fold_right (insert_by_start local) [] l.

(** [os.path.join(folder, name)] of [posixpath]. *)
Definition starts_with_slash (s : string) : bool :=
  match s with
  | String c _ => Ascii.eqb c "/"
  | EmptyString => false
  end.

Fixpoint ends_with_slash (s : string) : bool :=
  match s with
  | EmptyString => false
  | String c EmptyString => Ascii.eqb c "/"
  | String _ r => ends_with_slash r
  end.

Definition path_join (folder name : string) : string :=
  if starts_with_slash name then name
  else if (folder =? "")%string || ends_with_slash folder
  then (folder ++ name)%string
  else (folder ++ "/" ++ name)%string.

(** The loop of lines 280-288: an [Event] is built for each occurrence
    and added to the calendar; the first constructor that raises ends
    the run. *)
Fixpoint for_event_add (w : world) (filtered_events : list event) : M unit :=
  match filtered_events with
  | [] => ret tt
  | event :: rest =>
      lift (ics_Event w event) ;;
      for_event_add w rest
  end.

Definition main (w : world) (ics_files : list string)
    (date timezone output : string) : M unit :=
  expanded_cal <- extract_recurring_events_ics w ics_files timezone ;;
  filtered_events <- lift (filter_events_by_date expanded_cal date) ;;
  (* Sort filtered events by start time *)
  let filtered_events := sort_by_start (local_utcoffset w) filtered_events in
  let new_ics_filename := path_join output "combined_expanded.ics" in
  (* Write the filtered events to the new ICS file *)
  for_event_add w filtered_events ;;
  open_for_writing w new_ics_filename ;;
  serialized <- lift (ics_serialize w filtered_events) ;;
  write_text w new_ics_filename serialized ;;
  print (WrittenTo "Filtered calendar" new_ics_filename) ;;
  (* Generate the text file with formatted events *)
  let text_filename := path_join output "combined_events.txt" in
  formatted_events <-
    lift (format_events_for_text_file w filtered_events date) ;;
  open_for_writing w text_filename ;;
  write_text w text_filename formatted_events ;;
  print (WrittenTo "Formatted events" text_filename).

(** The state in which the script starts. *)
Definition initial_state : state :=
  {| console := []; alarm := None; opened := []; written := [];
     all_events := []; filtered_events := None |}.

(** ** What the digest loop computes, event by event *)

(** The text [summarize_with_gpt] hands back for request [n]. *)
Definition summary_text (w : world) (n : nat) (title : string)
    (max_length : Z) : string :=
  match summarize_with_gpt w n title max_length with
  | Ok s => s
  | Raise _ => ""
  end.

(** Each event with the summary requested for it. *)
Fixpoint digest_entries (w : world) (n : nat) (events : list event)
  : list (event * string) :=
  match events with
  | [] => []
  | e :: rest =>
      (e, summary_text w n (title e) (if is_all_day e then 22 else 16))
      :: digest_entries w (S n) rest
  end.

Definition all_day_entries (w : world) (n : nat) (events : list event)
  : list (event * string) :=
  filter (fun p => is_all_day (fst p)) (digest_entries w n events).

Definition timed_entries (w : world) (n : nat) (events : list event)
  : list (event * string) :=
  filter (fun p => negb (is_all_day (fst p))) (digest_entries w n events).

(** The line of a timed entry. *)
Definition timed_line (p : event * string) : string :=
  (strftime_H_M (start_time (fst p)) ++ " " ++ snd p)%string.







(** ** Occurrences as the pipeline expects them *)

(** The occurrence a yielded component becomes, when it normalises. *)
Definition occurrence (w : world) (tz : tzinfo) (s : step) : option event :=
  match s with
  | Yield ev =>
      match normalize w tz ev with
      | Ok (start_time, end_time) => Some (make_event ev start_time end_time)
      | Raise _ => None
      end
  | Throw _ => None
  end.

Fixpoint occurrences (w : world) (tz : tzinfo) (l : list step) : list event :=
  match l with
  | [] => []
  | s :: r =>
      match occurrence w tz s with
      | Some e => e :: occurrences w tz r
      | None => occurrences w tz r
      end
  end.

(** A yielded component inside the window: it normalises and its start
    date is not after [end_date]. *)
Definition in_window (w : world) (tz : tzinfo) (end_date : Z) (s : step) : Prop :=
  exists e, occurrence w tz s = Some e /\ dt_date (start_time e) <= end_date.



(** A target date in the form [YYYY-MM-DD]. *)
Definition iso_date (d : ymd) : string :=
  (four_digits (year d) ++ "-" ++ two_digits (month d) ++ "-"
   ++ two_digits (day d))%string.

Definition valid_ymd (d : ymd) : Prop :=
  1 <= year d <= 9999 /\ 1 <= month d <= 12 /\
  1 <= day d <= days_in_month (year d) (month d).

Definition MONTH_NAMES_UPPER : list string :=
  [""; "JANUARY"; "FEBRUARY"; "MARCH"; "APRIL"; "MAY"; "JUNE"; "JULY";
   "AUGUST"; "SEPTEMBER"; "OCTOBER"; "NOVEMBER"; "DECEMBER"].

(** The header line of the digest for a date. *)
Definition header_line (d : ymd) : string :=
  ("--- " ++ nth (Z.to_nat (month d)) MONTH_NAMES_UPPER "" ++ " "
   ++ two_digits (day d) ++ " ---" ++ NEWLINE)%string.

(** ** The loop and the guarded block, read off as values *)

(** What the loop over a sequence keeps and how it ends: with the part of
    the sequence it never asked for, or with the exception that broke it. *)
Fixpoint kept_of_query (w : world) (tz : tzinfo) (end_date : Z)
    (query : list step) : list event * result (list step) :=
  match query with
  | [] => ([], Ok [])
  | Throw e :: _ => ([], Raise e)
  | Yield ev :: rest =>
      match normalize w tz ev with
      | Raise e => ([], Raise e)
      | Ok (start_time, end_time) =>
          if end_date <? dt_date start_time then ([], Ok rest)
          else
            let '(l, r) := kept_of_query w tz end_date rest in
            (make_event ev start_time end_time :: l, r)
      end
  end.

(** The line the [except] clauses print for an exception. *)
Definition warning_line (path : string) (e : exn) : console_line :=
  if is_timeout e then TimeoutWarning path else ProcessingError path e.

(** The date the window of a file starts on. *)
Definition current_date_in (w : world) (tz : tzinfo) : Z :=
  dt_date (fromutc tz (now_utc w)).

(** A computation keeps a property of the state, however it ends. *)
Definition preserves {A} (P : state -> Prop) (c : M A) : Prop :=
  forall st, P st -> P (snd (c st)).

(** Every occurrence held by the locals satisfies [Q]. *)
Definition locals_all (Q : event -> Prop) (st : state) : Prop :=
  Forall Q (all_events st) /\
  forall l, filtered_events st = Some l -> Forall Q l.


(** Every occurrence the loop can build from what the expansions of the
    world yield satisfies [Q]. *)
Definition emits_only (w : world) (Q : event -> Prop) : Prop :=
  forall cal d items ev tz s e,
    recurring_events_after w cal d = Ok items ->
    In (Yield ev) items ->
    normalize w tz ev = Ok (s, e) ->
    Q (make_event ev s e).

(** The state between two files: no alarm of the script is pending (the
    alarm is off, or as it was before the run, [a]), the files written so
    far are [W], and the locals hold occurrences satisfying [Q] only. *)
Definition between_files (Q : event -> Prop) (W : list (string * artifact))
    (a : option Z) (st : state) : Prop :=
  (alarm st = None \/ alarm st = a) /\ written st = W /\ locals_all Q st.

(** ** Sample calendars and a sample world *)

Definition HOUR : Z := 3600 * US_PER_SECOND.

Definition today : Z := ymd2ord {| year := 2024; month := 1; day := 15 |}.

Definition at_utc (d h m s : Z) : datetime :=
  replace_tzinfo (combine d (mk_time h m s 0)) UTC_offset.

Definition standup : vevent :=
  {| SUMMARY := Some "Standup"; LOCATION := None;
     DTSTART := Some (DateTimeVal (at_utc today 9 0 0));
     DTEND := Some (DateTimeVal (at_utc today 9 15 0));
     RRULE := true |}.

Definition offsite : vevent :=
  {| SUMMARY := Some "Team Offsite"; LOCATION := Some "HQ";
     DTSTART := Some (DateVal today); DTEND := None; RRULE := false |}.

Definition retro : vevent :=
  {| SUMMARY := Some "Retro"; LOCATION := None;
     DTSTART := Some (DateTimeVal (at_utc today 13 15 0));
     DTEND := None; RRULE := false |}.

(** An occurrence a month ahead, outside any one-day window. *)
Definition conference : vevent :=
  {| SUMMARY := Some "Conference"; LOCATION := None;
     DTSTART := Some (DateVal (today + 30)); DTEND := None; RRULE := false |}.

(** A component whose end precedes its start. *)
Definition backwards : vevent :=
  {| SUMMARY := Some "Backwards"; LOCATION := None;
     DTSTART := Some (DateTimeVal (at_utc today 10 0 0));
     DTEND := Some (DateTimeVal (at_utc today 9 0 0));
     RRULE := false |}.

(** Two components starting within the same minute. *)
Definition alpha_review : vevent :=
  {| SUMMARY := Some "Alpha review"; LOCATION := None;
     DTSTART := Some (DateTimeVal (at_utc today 9 0 30));
     DTEND := Some (DateTimeVal (at_utc today 9 30 0));
     RRULE := false |}.

Definition budget_call : vevent :=
  {| SUMMARY := Some "Budget call"; LOCATION := None;
     DTSTART := Some (DateTimeVal (at_utc today 9 0 10));
     DTEND := Some (DateTimeVal (at_utc today 9 30 0));
     RRULE := false |}.

Definition tz_utc : tzinfo := fun _ => 0.
Definition tz_pacific : tzinfo := fun _ => - (8 * HOUR).

(** Files are named after what they hold; ["missing.ics"] cannot be
    opened, ["notes.txt"] is not a calendar, and the expansion of
    ["huge.ics"] is still being set up when the alarm goes off. *)
Definition sample_world : world :=
  {| open_read := fun path =>
       if (path =? "missing.ics")%string
       then Raise (OSError "No such file or directory")
       else Ok path;
     from_ical := fun data =>
       if (data =? "standup.ics")%string then Ok [standup]
       else if (data =? "offsite.ics")%string then Ok [offsite]
       else if (data =? "week.ics")%string
         then Ok [standup; retro; conference; backwards]
       else if (data =? "backwards.ics")%string then Ok [backwards]
       else if (data =? "minute.ics")%string then Ok [alpha_review; budget_call]
       else if (data =? "huge.ics")%string then Ok []
       else Raise (ValueError "Content line could not be parsed");
     pytz_timezone := fun name =>
       if (name =? "UTC")%string then Ok tz_utc
       else if (name =? "America/Los_Angeles")%string then Ok tz_pacific
       else Raise (UnknownTimeZoneError name);
     now_utc := today * US_PER_DAY + 12 * HOUR;
     local_utcoffset := fun _ => 0;
     recurring_events_after := fun cal _ =>
       match cal with
       | [] => Raise timeout_handler
       | _ => Ok (map Yield cal)
       end;
     chat_completions_create := fun _ _ _ =>
       Raise (OtherException "Connection error.");
     ics_Event := fun e =>
       if utc_instant (fun _ => 0) (end_time e)
          <? utc_instant (fun _ => 0) (start_time e)
       then Raise (ValueError "End must be after begin")
       else Ok tt;
     ics_serialize := fun events => Ok (join NEWLINE (map title events));
     open_write := fun path =>
       if starts_with_slash path
       then Raise (OSError "No such file or directory")
       else Ok tt;
     file_write := fun _ _ => Ok tt |}.

(** The occurrences of the sample components in UTC. *)
Definition standup_event : event :=
  make_event standup (at_utc today 9 0 0) (at_utc today 9 15 0).

Definition backwards_event : event :=
  make_event backwards (at_utc today 10 0 0) (at_utc today 9 0 0).




Definition offsite_event : event :=
  make_event offsite (at_utc today 0 0 0)
    (replace_tzinfo (combine today time_max) UTC_offset).

Definition gym : vevent :=
  {| SUMMARY := Some "Gym"; LOCATION := None;
     DTSTART := Some (DateTimeVal (at_utc today 7 30 0));
     DTEND := Some (DateTimeVal (at_utc today 8 30 0));
     RRULE := true |}.

Definition gym_event : event :=
  make_event gym (at_utc today 7 30 0) (at_utc today 8 30 0).

Definition retro_event : event :=
  make_event retro (at_utc today 13 15 0) (at_utc today 13 15 0).

(** ** More of the script, read off as values *)

(** The zone name the extraction works with (lines 76-77). *)
Definition effective_timezone (target_timezone : string) : string :=
  if (target_timezone =? "")%string then DEFAULT_TIMEZONE
  else target_timezone.

(** What the guarded block of a file keeps and how its loop ends, when
    the file loads, the zone resolves and the expansion starts. *)
Definition file_run (w : world) (tzname path : string)
  : option (list event * result (list step)) :=
  match open_read w path with
  | Raise _ => None
  | Ok data =>
      match from_ical w data with
      | Raise _ => None
      | Ok cal =>
          match pytz_timezone w tzname with
          | Raise _ => None
          | Ok tz =>
              match recurring_events_after w cal (current_date_in w tz) with
              | Raise _ => None
              | Ok query =>
                  Some (kept_of_query w tz
                          (current_date_in w tz + DAYS_TO_INCLUDE) query)
              end
          end
      end
  end.

Definition file_kept (w : world) (tzname path : string) : list event :=
  match file_run w tzname path with
  | Some (l, _) => l
  | None => []
  end.

Definition file_warnings (w : world) (tzname path : string)
  : list console_line :=
  match file_run w tzname path with
  | Some (_, Raise e) => [warning_line path e]
  | _ => []
  end.

(** An element of the expansion at which the loop is left by the
    exception [e]: raised while waiting for it, or by its normalisation. *)
Definition fails_with (w : world) (tz : tzinfo) (s : step) (e : exn) : Prop :=
  s = Throw e \/ exists ev, s = Yield ev /\ normalize w tz ev = Raise e.

(** A number below 100 without padding, and a date written with them. *)
Definition unpadded (n : Z) : string :=
  if n <? 10 then String (digit_char n) "" else two_digits n.

Definition loose_date (d : ymd) : string :=
  (four_digits (year d) ++ "-" ++ unpadded (month d) ++ "-"
   ++ unpadded (day d))%string.

(** The test of [filter_events_by_date] for a parsed date. *)
Definition on_day (d : ymd) (e : event) : bool :=
  dt_date (start_time e) =? ymd2ord d.

(** Orders on occurrences and on lines. *)
Definition start_le (local : Z -> Z) (a b : event) : Prop :=
  utc_instant local (start_time a) <= utc_instant local (start_time b).

Definition lex_le (a b : string) : Prop := String.leb a b = true.

(** A world in which the alarm goes off after the first occurrence of any
    expansion. *)
Definition slow_world : world :=
  {| open_read := open_read sample_world;
     from_ical := from_ical sample_world;
     pytz_timezone := pytz_timezone sample_world;
     now_utc := now_utc sample_world;
     local_utcoffset := local_utcoffset sample_world;
     recurring_events_after := fun _ _ =>
       Ok [Yield standup; Throw timeout_handler; Yield retro];
     chat_completions_create := chat_completions_create sample_world;
     ics_Event := ics_Event sample_world;
     ics_serialize := ics_serialize sample_world;
     open_write := open_write sample_world;
     file_write := file_write sample_world |}.

(** ** [crop_string] of [newsPoem.py] (lines 136-156) *)

Definition LF : ascii := ascii_of_N 10.

(** [s.split('\n')]: never empty, one more piece than there are
    newlines. *)
Fixpoint split_lines (s : string) : list string :=
  match s with
  | EmptyString => [""]
  | String c r =>
      if Ascii.eqb c LF then "" :: split_lines r
      else
        match split_lines r with
        | line :: lines => String c line :: lines
        | [] => [String c ""]
        end
  end.

(** The loop over [enumerate(lines)]; [i] is the index of the next
    line. *)
Fixpoint crop_lines (i : Z) (lines : list string)
    (max_lines max_chars_per_line : Z) (cropped_lines : list string)
  : list string :=
  match lines with
  | [] => cropped_lines
  | line :: rest =>
      if max_lines <=? i then cropped_lines
      else
        crop_lines (i + 1) rest max_lines max_chars_per_line
          (cropped_lines ++ [py_slice_to line max_chars_per_line])
  end.

Definition crop_string (text : string) (max_lines max_chars_per_line : Z)
  : string :=
  let lines := split_lines text in
  join NEWLINE (crop_lines 0 lines max_lines max_chars_per_line []).

Fixpoint has_newline (s : string) : bool :=
  match s with
  | EmptyString => false
  | String c r => Ascii.eqb c LF || has_newline r
  end.

(** A text within the limits of a crop. *)
Definition within_limits (text : string) (max_lines max_chars_per_line : Z)
  : Prop :=
  Z.of_nat (List.length (split_lines text)) <= max_lines /\
  Forall (fun line => Z.of_nat (String.length line) <= max_chars_per_line)
    (split_lines text).

(** ** The output of a run, read off as values *)

(** The occurrences of the target date in the order they are handed to
    the calendar and to the formatter. *)
Definition day_events (w : world) (evs : list event) (d : ymd) : list event :=
  sort_by_start (local_utcoffset w) (filter (on_day d) evs).

(** The digest of a list of occurrences for a parsed date. *)
Definition digest_text (w : world) (events : list event) (d : ymd) : string :=
  (header_line d
   ++ join NEWLINE
        (sort_strings (map timed_line (timed_entries w 0 events))
         ++ sort_strings (map snd (all_day_entries w 0 events))))%string.

(** The world lets the run produce its two files: every [Event] is
    built, the calendar serialises to [serialized], and both files can be
    opened in the output folder and written. *)
Definition outputs_succeed (w : world) (output : string)
    (events : list event) (digest serialized : string) : Prop :=
  Forall (fun e => ics_Event w e = Ok tt) events /\
  open_write w (path_join output "combined_expanded.ics") = Ok tt /\
  ics_serialize w events = Ok serialized /\
  file_write w (path_join output "combined_expanded.ics") serialized = Ok tt /\
  open_write w (path_join output "combined_events.txt") = Ok tt /\
  file_write w (path_join output "combined_events.txt") digest = Ok tt.


(** ** Proof automation *)

(** Case analysis on an integer known to lie in a short range: [x] is
    [lo], or [lo + 1], ... for [n] values, and the context rules out the
    rest. *)
Ltac enum_from x lo n tac :=
  lazymatch n with
  | O => exfalso; lia
  | S ?n' =>
      destruct (Z.eq_dec x lo) as [->|?];
      [ tac
      | let lo' := eval compute in (lo + 1) in enum_from x lo' n' tac ]
  end.

(** * Properties *)

(** ** Slices *)

Lemma length_substring_0 (s : string) (k : nat) :
  String.length (substring 0 k s) = Nat.min k (String.length s).
Proof.
  revert k; induction s as [|c s IH]; intros [|k]; simpl; auto.
Qed.

Lemma py_slice_to_nat (s : string) (k : nat) :
  py_slice_to s (Z.of_nat k) = substring 0 (Nat.min k (String.length s)) s.
Proof.
  unfold py_slice_to.
  destruct (Z.ltb_spec (Z.of_nat k) 0) as [Hneg|_]; [lia|].
  f_equal. lia.
Qed.

Lemma py_slice_to_length (s : string) (k : nat) :
  (String.length (py_slice_to s (Z.of_nat k)) <= k)%nat.
Proof.
  rewrite py_slice_to_nat, length_substring_0. lia.
Qed.

(** A negative bound counts from the end, as in Python. *)
Remark py_slice_to_negative : py_slice_to "abc" (-1) = "ab".
Proof. reflexivity. Qed.

(** ** The summariser *)

Lemma summarize_with_gpt_cases (w : world) (n : nat) (title : string)
    (max_length : Z) :
  summarize_with_gpt w n title max_length =
  Ok (py_slice_to
        (match chat_completions_create w n title max_length with
         | Ok content => strip content
         | Raise _ => title
         end) max_length).
Proof.
  unfold summarize_with_gpt, try_except.
  destruct (chat_completions_create w n title max_length); reflexivity.
Qed.

Lemma summary_text_spec (w : world) (n : nat) (title : string) (k : Z) :
  summarize_with_gpt w n title k = Ok (summary_text w n title k).
Proof.
  unfold summary_text. rewrite summarize_with_gpt_cases. reflexivity.
Qed.

(** The loop of the formatter, with its accumulators. *)
Lemma for_event_in_events_spec (w : world) (events : list event) :
  forall (n : nat) (all_day timed : list string),
    for_event_in_events w n events all_day timed =
    Ok (all_day ++ map snd (all_day_entries w n events),
        timed ++ map timed_line (timed_entries w n events)).
Proof.
  unfold all_day_entries, timed_entries.
  induction events as [|e rest IH]; intros n all_day timed; simpl.
  - now rewrite !app_nil_r.
  - destruct (is_all_day e) eqn:He; simpl;
      rewrite summary_text_spec, IH, <- app_assoc; reflexivity.
Qed.

(** C9: whatever the title, the length bound and the behaviour of the
    completion service, [summarize_with_gpt] returns a text of at most
    [max_length] characters and raises nothing; when the request raises,
    that text is the raw title cut to its first [max_length] characters;
    and the rendering loop of the formatter, which calls it once per
    event, never raises. *)
Theorem summarize_with_gpt_never_raises :
  forall (w : world) (n : nat) (title : string) (max_length : nat),
    (exists s,
        summarize_with_gpt w n title (Z.of_nat max_length) = Ok s /\
        (String.length s <= max_length)%nat) /\
    (forall e,
        chat_completions_create w n title (Z.of_nat max_length) = Raise e ->
        summarize_with_gpt w n title (Z.of_nat max_length) =
        Ok (substring 0 (Nat.min max_length (String.length title)) title)) /\
    (forall events all_day timed,
        exists r, for_event_in_events w n events all_day timed = Ok r).
Proof.
  intros w n title max_length. split; [|split].
  - rewrite summarize_with_gpt_cases. eexists; split; [reflexivity|].
    apply py_slice_to_length.
  - intros e He. rewrite summarize_with_gpt_cases, He.
    now rewrite py_slice_to_nat.
  - intros events all_day timed. rewrite for_event_in_events_spec.
    eexists; reflexivity.
Qed.

Lemma summarize_with_gpt_never_raises_witness :
  chat_completions_create sample_world 0 "Quarterly planning offsite" 16
    = Raise (OtherException "Connection error.") /\
  summarize_with_gpt sample_world 0 "Quarterly planning offsite" 16
    = Ok "Quarterly planni".
Proof.
  split; [reflexivity|].
  exact (proj1 (proj2 (summarize_with_gpt_never_raises
                         sample_world 0 "Quarterly planning offsite" 16%nat))
               (OtherException "Connection error.") eq_refl).
Defined.

(** ** All-day and timed entries *)

Lemma is_all_day_iff (e : event) :
  is_all_day e = true <->
  dt_time (start_time e) = time_min /\ dt_time (end_time e) = time_max.
Proof.
  unfold is_all_day. now rewrite andb_true_iff, !Z.eqb_eq.
Qed.

Lemma digest_entries_events (w : world) (events : list event) :
  forall n, map fst (digest_entries w n events) = events.
Proof.
  induction events as [|e rest IH]; intros n; simpl; [|rewrite IH]; reflexivity.
Qed.

Lemma in_entries_iff (w : world) (n : nat) (events : list event)
    (keep : event -> bool) (e : event) :
  In e (map fst (filter (fun p => keep (fst p)) (digest_entries w n events)))
  <-> In e events /\ keep e = true.
Proof.
  rewrite in_map_iff. split.
  - intros [[e' s] [Hfst Hin]]. simpl in Hfst; subst e'.
    apply filter_In in Hin as [Hin Hkeep]. split; [|exact Hkeep].
    rewrite <- (digest_entries_events w events n).
    now apply (in_map fst) in Hin.
  - intros [Hin Hkeep].
    rewrite <- (digest_entries_events w events n) in Hin.
    apply in_map_iff in Hin as [[e' s] [Hfst Hin]]. simpl in Hfst; subst e'.
    exists (e, s). split; [reflexivity|]. apply filter_In. now split.
Qed.

(** C4: the formatter puts an event in the all-day group exactly when the
    time of day of its start is [time.min] and that of its end is
    [time.max], and in the timed group exactly when it is in the list
    and that fails; the two groups are what the loop returns. *)
Theorem all_day_classification_exact :
  forall (w : world) (n : nat) (events : list event),
    for_event_in_events w n events [] [] =
      Ok (map snd (all_day_entries w n events),
          map timed_line (timed_entries w n events)) /\
    (forall e,
        In e (map fst (all_day_entries w n events)) <->
        In e events /\
        dt_time (start_time e) = time_min /\ dt_time (end_time e) = time_max) /\
    (forall e,
        In e (map fst (timed_entries w n events)) <->
        In e events /\
        ~ (dt_time (start_time e) = time_min /\
           dt_time (end_time e) = time_max)).
Proof.
  intros w n events. split; [|split].
  - now rewrite for_event_in_events_spec.
  - intros e. unfold all_day_entries.
    now rewrite in_entries_iff, is_all_day_iff.
  - intros e. unfold timed_entries.
    rewrite (in_entries_iff w n events (fun x => negb (is_all_day x))).
    rewrite negb_true_iff, <- is_all_day_iff.
    now rewrite not_true_iff_false.
Qed.

(** ** Normalisation *)

Lemma US_PER_DAY_pos : 0 < US_PER_DAY.
Proof. reflexivity. Qed.

Lemma combine_date (d t : Z) :
  0 <= t < US_PER_DAY -> dt_date (combine d t) = d.
Proof.
  intros Ht. unfold dt_date, combine; simpl.
  rewrite Z.add_comm, Z.div_add by (pose proof US_PER_DAY_pos; lia).
  rewrite Z.div_small by exact Ht. reflexivity.
Qed.

Lemma combine_time (d t : Z) :
  0 <= t < US_PER_DAY -> dt_time (combine d t) = t.
Proof.
  intros Ht. unfold dt_time, combine; simpl.
  rewrite Z.add_comm, Z.mod_add by (pose proof US_PER_DAY_pos; lia).
  now apply Z.mod_small.
Qed.

Lemma time_min_range : 0 <= time_min < US_PER_DAY.
Proof. split; [discriminate | reflexivity]. Qed.

Lemma time_max_range : 0 <= time_max < US_PER_DAY.
Proof. split; [discriminate | reflexivity]. Qed.

(** [astimezone] keeps the instant and stamps the offset the target zone
    has at that instant. *)
Lemma astimezone_instant (local : Z -> Z) (t : datetime) (tz : tzinfo) :
  utc_instant local (astimezone local t tz) = utc_instant local t.
Proof. unfold astimezone, fromutc, utc_instant at 1; simpl. lia. Qed.

Lemma astimezone_offset (local : Z -> Z) (t : datetime) (tz : tzinfo) :
  utcoffset (astimezone local t tz) = Some (tz (utc_instant local t)).
Proof. reflexivity. Qed.

(** C3: an occurrence whose start is a bare date [d] (its end absent or a
    bare date) is normalised to [d] at [time.min] and the end date, [d]
    itself when the end is absent, at [time.max], both stamped UTC; an
    occurrence whose start is an aware datetime (its end absent or a
    datetime) has start and end converted to the target zone, and a
    converted value is the same instant read at the zone's offset. *)
Theorem normalize_all_day_and_zoned :
  forall (w : world) (tz : tzinfo) (ev : vevent),
    (forall d end_date,
        DTSTART ev = Some (DateVal d) ->
        (DTEND ev = None /\ end_date = d) \/
          DTEND ev = Some (DateVal end_date) ->
        normalize w tz ev =
          Ok (replace_tzinfo (combine d time_min) UTC_offset,
              replace_tzinfo (combine end_date time_max) UTC_offset) /\
        dt_date (combine d time_min) = d /\
        dt_time (combine d time_min) = mk_time 0 0 0 0 /\
        dt_date (combine end_date time_max) = end_date /\
        dt_time (combine end_date time_max) = mk_time 23 59 59 999999) /\
    (forall s off end_dt,
        DTSTART ev = Some (DateTimeVal s) ->
        utcoffset s = Some off ->
        (DTEND ev = None /\ end_dt = s) \/
          DTEND ev = Some (DateTimeVal end_dt) ->
        normalize w tz ev =
          Ok (astimezone (local_utcoffset w) s tz,
              astimezone (local_utcoffset w) end_dt tz) /\
        utc_instant (local_utcoffset w) (astimezone (local_utcoffset w) s tz)
          = wall s - off /\
        utcoffset (astimezone (local_utcoffset w) s tz)
          = Some (tz (wall s - off)) /\
        utc_instant (local_utcoffset w)
          (astimezone (local_utcoffset w) end_dt tz)
          = utc_instant (local_utcoffset w) end_dt /\
        utcoffset (astimezone (local_utcoffset w) end_dt tz)
          = Some (tz (utc_instant (local_utcoffset w) end_dt))).
Proof.
  intros w tz ev. split.
  - intros d end_date Hs He. split.
    + unfold normalize. rewrite Hs.
      destruct He as [[He ->]|He]; rewrite He; reflexivity.
    + repeat split.
      * apply combine_date, time_min_range.
      * apply combine_time, time_min_range.
      * apply combine_date, time_max_range.
      * apply combine_time, time_max_range.
  - intros s off end_dt Hs Hoff He. split.
    + unfold normalize. rewrite Hs.
      destruct He as [[He ->]|He]; rewrite He; reflexivity.
    + rewrite !astimezone_instant, !astimezone_offset.
      unfold utc_instant at 1 2. rewrite Hoff. repeat split.
Qed.

Lemma normalize_all_day_and_zoned_witness :
  normalize sample_world tz_pacific offsite =
    Ok ({| wall := today * US_PER_DAY; utcoffset := Some 0 |},
        {| wall := today * US_PER_DAY + (US_PER_DAY - 1);
           utcoffset := Some 0 |}) /\
  normalize sample_world tz_pacific standup =
    Ok ({| wall := today * US_PER_DAY + HOUR; utcoffset := Some (- (8 * HOUR)) |},
        {| wall := today * US_PER_DAY + HOUR + 900 * US_PER_SECOND;
           utcoffset := Some (- (8 * HOUR)) |}).
Proof.
  split.
  - exact (proj1 (proj1 (normalize_all_day_and_zoned sample_world tz_pacific
                           offsite) today today eq_refl
                    (or_introl (conj eq_refl eq_refl)))).
  - exact (proj1 (proj2 (normalize_all_day_and_zoned sample_world tz_pacific
                           standup) (at_utc today 9 0 0) 0
                    (at_utc today 9 15 0) eq_refl eq_refl
                    (or_intror eq_refl))).
Defined.

(** ** The window filter *)

Lemma with_filtered_events_twice (st : state) (a b : option (list event)) :
  with_filtered_events (with_filtered_events st a) b = with_filtered_events st b.
Proof. reflexivity. Qed.

(** One turn of the loop on an occurrence inside the window. *)
Lemma for_event_in_query_keep (w : world) (tz : tzinfo) (end_date : Z)
    (s : step) (rest : list step) (st : state) (kept : list event) (e : event) :
  filtered_events st = Some kept ->
  occurrence w tz s = Some e ->
  dt_date (start_time e) <= end_date ->
  for_event_in_query w tz end_date (s :: rest) st =
  for_event_in_query w tz end_date rest
    (with_filtered_events st (Some (kept ++ [e]))).
Proof.
  intros Hst Hocc Hdate. destruct s as [ev|x]; [|discriminate].
  simpl in *. unfold bind at 1, lift.
  destruct (normalize w tz ev) as [[s0 e0]|x]; [|discriminate].
  injection Hocc as <-. simpl in Hdate.
  destruct (Z.ltb_spec end_date (dt_date s0)) as [Hlate|_]; [lia|].
  unfold bind at 1, append_filtered, bind at 1, gets.
  rewrite Hst. reflexivity.
Qed.

(** C6: when the occurrences before [ev] are all inside the window and
    the normalised start date of [ev] is after [end_date], the loop ends
    at [ev]: it has kept the occurrences before [ev] and nothing else,
    and the elements after [ev] are handed back unevaluated, whatever
    they are. *)
Theorem window_filter_stops_at_first_late_occurrence :
  forall (w : world) (tz : tzinfo) (end_date : Z)
         (pre : list step) (ev : vevent) (post : list step)
         (st : state) (kept : list event) (start_t end_t : datetime),
    filtered_events st = Some kept ->
    Forall (in_window w tz end_date) pre ->
    normalize w tz ev = Ok (start_t, end_t) ->
    end_date < dt_date start_t ->
    for_event_in_query w tz end_date (pre ++ Yield ev :: post) st =
      (Ok post,
       with_filtered_events st (Some (kept ++ occurrences w tz pre))).
Proof.
  intros w tz end_date pre ev post st kept start_t end_t Hst Hpre Hev Hlate.
  revert st kept Hst.
  induction Hpre as [|s pre [e [Hocc Hdate]] Hpre IH]; intros st kept Hst.
  - simpl. unfold bind, lift. rewrite Hev.
    apply Z.ltb_lt in Hlate. rewrite Hlate. unfold ret.
    rewrite app_nil_r. destruct st; simpl in *; subst; reflexivity.
  - rewrite <- app_comm_cons.
    rewrite (for_event_in_query_keep w tz end_date s _ st kept e Hst Hocc Hdate).
    rewrite (IH (with_filtered_events st (Some (kept ++ [e]))) (kept ++ [e])
               eq_refl).
    simpl. rewrite Hocc, with_filtered_events_twice, <- app_assoc.
    reflexivity.
Qed.

Lemma window_filter_stops_at_first_late_occurrence_witness :
  for_event_in_query sample_world tz_utc (today + 1)
    ([Yield standup; Yield retro] ++ Yield conference
       :: [Throw (OtherException "never asked for"); Yield backwards])
    (with_filtered_events initial_state (Some [])) =
  (Ok [Throw (OtherException "never asked for"); Yield backwards],
   with_filtered_events (with_filtered_events initial_state (Some []))
     (Some ([] ++ occurrences sample_world tz_utc
                    [Yield standup; Yield retro]))).
Proof.
  apply (window_filter_stops_at_first_late_occurrence
           sample_world tz_utc (today + 1) [Yield standup; Yield retro]
           conference _ _ []
           (at_utc (today + 30) 0 0 0)
           (replace_tzinfo (combine (today + 30) time_max) UTC_offset)).
  - reflexivity.
  - repeat constructor.
    + exists standup_event. split; [reflexivity|]. vm_compute. discriminate.
    + exists (make_event retro (at_utc today 13 15 0) (at_utc today 13 15 0)).
      split; [reflexivity|]. vm_compute. discriminate.
  - reflexivity.
  - vm_compute. reflexivity.
Defined.

(** ** Running one file *)

Lemma for_event_in_query_run (w : world) (tz : tzinfo) (end_date : Z)
    (query : list step) :
  forall (st : state) (l : list event),
    filtered_events st = Some l ->
    for_event_in_query w tz end_date query st =
    (snd (kept_of_query w tz end_date query),
     with_filtered_events st
       (Some (l ++ fst (kept_of_query w tz end_date query)))).
Proof.
  induction query as [|[ev|x] rest IH]; intros st l Hst; simpl.
  - unfold ret. rewrite app_nil_r. destruct st; simpl in *; now subst.
  - unfold bind at 1, lift.
    destruct (normalize w tz ev) as [[s0 e0]|x]; simpl.
    + destruct (end_date <? dt_date s0); simpl.
      * unfold ret. rewrite app_nil_r. destruct st; simpl in *; now subst.
      * unfold bind at 1, append_filtered, bind at 1, gets. rewrite Hst.
        simpl.
        rewrite (IH (with_filtered_events st (Some (l ++ [make_event ev s0 e0])))
                    (l ++ [make_event ev s0 e0]) eq_refl).
        destruct (kept_of_query w tz end_date rest) as [l' r]; simpl.
        now rewrite with_filtered_events_twice, <- app_assoc.
    + rewrite app_nil_r. destruct st; simpl in *; now subst.
  - unfold raise. rewrite app_nil_r. destruct st; simpl in *; now subst.
Qed.

(** A file that cannot be opened, parsed, or whose zone is unknown: the
    exception leaves [process_file] before the alarm is set. *)
Lemma process_file_unreadable (w : world) (tzname path : string)
    (st : state) (e : exn) :
  open_read w path = Raise e ->
  process_file w tzname path st =
  (Raise e, with_opened st (opened st ++ [path])).
Proof.
  intros H. unfold process_file, read_file, bind, modify, lift.
  now rewrite H.
Qed.

Lemma process_file_unparsable (w : world) (tzname path data : string)
    (st : state) (e : exn) :
  open_read w path = Ok data ->
  from_ical w data = Raise e ->
  process_file w tzname path st =
  (Raise e, with_opened st (opened st ++ [path])).
Proof.
  intros H1 H2. unfold process_file, read_file, bind, modify, lift.
  now rewrite H1, H2.
Qed.

(** A file that loads but whose expansion raises before the loop starts:
    the name [filtered_events] still has the value the previous file
    gave it, if any. *)
Lemma process_file_expansion_raises (w : world) (tzname path data : string)
    (cal : calendar) (tz : tzinfo) (st : state) (e : exn) :
  open_read w path = Ok data ->
  from_ical w data = Ok cal ->
  pytz_timezone w tzname = Ok tz ->
  recurring_events_after w cal (current_date_in w tz) = Raise e ->
  process_file w tzname path st =
  let st' :=
    with_alarm
      (with_console (with_opened st (opened st ++ [path]))
         (console st ++ [warning_line path e])) None in
  match filtered_events st with
  | None => (Raise (UnboundLocalError "filtered_events"), st')
  | Some l => (Ok tt, with_all_events st' (all_events st ++ l))
  end.
Proof.
  intros H1 H2 H3 H4.
  unfold process_file, read_file, bind, modify, lift.
  rewrite H1, H2, H3.
  unfold try_except_finally, try_body, bind, lift.
  fold (current_date_in w tz). rewrite H4.
  unfold except_handler, warning_line, signal_alarm, print, modify, gets.
  destruct (is_timeout e); simpl; destruct (filtered_events st); reflexivity.
Qed.

(** A file whose expansion starts: what is added to [all_events] is what
    the loop kept from this file's own sequence, and nothing else. *)
Lemma process_file_expansion_starts (w : world) (tzname path data : string)
    (cal : calendar) (tz : tzinfo) (st : state) (query : list step) :
  open_read w path = Ok data ->
  from_ical w data = Ok cal ->
  pytz_timezone w tzname = Ok tz ->
  recurring_events_after w cal (current_date_in w tz) = Ok query ->
  let run :=
    kept_of_query w tz (current_date_in w tz + DAYS_TO_INCLUDE) query in
  process_file w tzname path st =
  (Ok tt,
   {| console :=
        match snd run with
        | Ok _ => console st
        | Raise e => console st ++ [warning_line path e]
        end;
      alarm := None;
      opened := opened st ++ [path];
      written := written st;
      all_events := all_events st ++ fst run;
      filtered_events := Some (fst run) |}).
Proof.
  intros H1 H2 H3 H4 run.
  unfold process_file, read_file, bind, modify, lift.
  rewrite H1, H2, H3.
  unfold try_except_finally, try_body, bind, lift.
  fold (current_date_in w tz). rewrite H4.
  unfold set_filtered_events, signal_alarm, modify. simpl.
  erewrite for_event_in_query_run by reflexivity.
  fold run. simpl.
  unfold except_handler, warning_line, print, modify, gets, ret.
  destruct (snd run) as [rest|e]; simpl; [reflexivity|].
  destruct (is_timeout e); reflexivity.
Qed.

Lemma process_file_unknown_zone (w : world) (tzname path data : string)
    (cal : calendar) (st : state) (e : exn) :
  open_read w path = Ok data ->
  from_ical w data = Ok cal ->
  pytz_timezone w tzname = Raise e ->
  process_file w tzname path st =
  (Raise e, with_opened st (opened st ++ [path])).
Proof.
  intros H1 H2 H3. unfold process_file, read_file, bind, modify, lift.
  now rewrite H1, H2, H3.
Qed.

(** ** An invariant of the loop over the files *)

Lemma kept_of_query_all (w : world) (tz : tzinfo) (end_date : Z)
    (Q : event -> Prop) (query : list step) :
  (forall ev s e,
      In (Yield ev) query -> normalize w tz ev = Ok (s, e) ->
      Q (make_event ev s e)) ->
  Forall Q (fst (kept_of_query w tz end_date query)).
Proof.
  induction query as [|[ev|x] rest IH]; intros HQ; simpl; try constructor.
  destruct (normalize w tz ev) as [[s0 e0]|x] eqn:Hn; simpl; try constructor.
  destruct (end_date <? dt_date s0); simpl; try constructor.
  destruct (kept_of_query w tz end_date rest) as [l r] eqn:Hk; simpl in *.
  constructor.
  - apply HQ; [now left | exact Hn].
  - apply IH. intros ev' s e Hin. apply HQ. now right.
Qed.

(** Whatever happens to a file, [process_file] leaves no alarm pending,
    writes nothing, and keeps the locals within [Q]. *)
Lemma process_file_between_files (w : world) (Q : event -> Prop)
    (W : list (string * artifact)) (a : option Z) (tzname path : string) :
  emits_only w Q ->
  preserves (between_files Q W a) (process_file w tzname path).
Proof.
  intros Hw st (Halarm & Hwritten & Hall & Hfiltered).
  destruct (open_read w path) as [data|e] eqn:H1.
  2:{ rewrite (process_file_unreadable w tzname path st e H1).
      repeat split; assumption. }
  destruct (from_ical w data) as [cal|e] eqn:H2.
  2:{ rewrite (process_file_unparsable w tzname path data st e H1 H2).
      repeat split; assumption. }
  destruct (pytz_timezone w tzname) as [tz|e] eqn:H3.
  2:{ rewrite (process_file_unknown_zone w tzname path data cal st e H1 H2 H3).
      repeat split; assumption. }
  destruct (recurring_events_after w cal (current_date_in w tz))
    as [query|e] eqn:H4.
  - rewrite (process_file_expansion_starts w tzname path data cal tz st query
               H1 H2 H3 H4).
    assert (Hkept : Forall Q
              (fst (kept_of_query w tz
                      (current_date_in w tz + DAYS_TO_INCLUDE) query))).
    { apply kept_of_query_all. intros ev s e Hin Hn.
      exact (Hw cal _ query ev tz s e H4 Hin Hn). }
    simpl. repeat split; simpl; auto.
    + apply Forall_app. now split.
    + intros l [= <-]. exact Hkept.
  - rewrite (process_file_expansion_raises w tzname path data cal tz st e
               H1 H2 H3 H4).
    destruct (filtered_events st) as [l|] eqn:Hf; simpl.
    + repeat split; simpl; auto.
      * apply Forall_app. split; [assumption | now apply Hfiltered].
      * rewrite Hf. exact Hfiltered.
    + repeat split; simpl; auto. rewrite Hf. exact Hfiltered.
Qed.

Lemma for_each_file_between_files (w : world) (Q : event -> Prop)
    (W : list (string * artifact)) (a : option Z) (tzname : string)
    (paths : list string) :
  emits_only w Q ->
  preserves (between_files Q W a) (for_each_file w tzname paths).
Proof.
  intros Hw. induction paths as [|path rest IH]; intros st Hst; simpl.
  - exact Hst.
  - unfold bind.
    pose proof (process_file_between_files w Q W a tzname path Hw st Hst) as H.
    destruct (process_file w tzname path st) as [[[]|e] st1]; simpl in *.
    + now apply IH.
    + exact H.
Qed.

Lemma for_each_file_app (w : world) (tzname : string)
    (pre post : list string) (st : state) :
  for_each_file w tzname (pre ++ post) st =
  match for_each_file w tzname pre st with
  | (Ok _, st1) => for_each_file w tzname post st1
  | (Raise e, st1) => (Raise e, st1)
  end.
Proof.
  revert st. induction pre as [|path pre IH]; intros st; simpl.
  - reflexivity.
  - unfold bind. destruct (process_file w tzname path st) as [[[]|e] st1].
    + apply IH.
    + reflexivity.
Qed.

(** The extraction is the loop over the files run on fresh locals. *)
Lemma extract_recurring_events_ics_run (w : world) (paths : list string)
    (tzname : string) (st : state) :
  extract_recurring_events_ics w paths tzname st =
  match
    for_each_file w
      (if (tzname =? "")%string then DEFAULT_TIMEZONE else tzname) paths
      (with_filtered_events (with_all_events st []) None)
  with
  | (Ok _, st1) => (Ok (all_events st1), st1)
  | (Raise e, st1) => (Raise e, st1)
  end.
Proof.
  unfold extract_recurring_events_ics, bind, set_all_events,
    set_filtered_events, modify, gets.
  destruct (for_each_file _ _ _ _) as [[[]|e] st1]; reflexivity.
Qed.

Lemma extract_between_files (w : world) (Q : event -> Prop)
    (paths : list string) (tzname : string) (st : state) :
  emits_only w Q ->
  between_files Q (written st) (alarm st)
    (snd (extract_recurring_events_ics w paths tzname st)).
Proof.
  intros Hw. rewrite extract_recurring_events_ics_run.
  pose proof (for_each_file_between_files w Q (written st) (alarm st)
                (if (tzname =? "")%string then DEFAULT_TIMEZONE else tzname)
                paths Hw
                (with_filtered_events (with_all_events st []) None)) as H.
  destruct (for_each_file _ _ _ _) as [[[]|e] st1]; simpl in *;
    apply H; repeat split; simpl; auto; discriminate.
Qed.

(** ** The invariant of an emitted occurrence *)






(** Lines 118-131 convert the end only by the kind of the start: were a
    date start to come with a naive datetime end, a shape the recurrence
    library does not yield, the end would pass through naive. *)
Remark naive_end_is_emitted :
  normalize sample_world tz_utc
    {| SUMMARY := None; LOCATION := None;
       DTSTART := Some (DateVal today);
       DTEND := Some (DateTimeVal (combine today (mk_time 17 0 0 0)));
       RRULE := false |}
  = Ok (at_utc today 0 0 0, combine today (mk_time 17 0 0 0))
  /\ is_aware (combine today (mk_time 17 0 0 0)) = false.
Proof. split; reflexivity. Qed.

(** ** A file that cannot be loaded *)

Lemma emits_only_True (w : world) : emits_only w (fun _ => True).
Proof. intros cal d items ev tz s e _ _ _. exact I. Qed.

Lemma extract_unloadable (w : world) (pre : list string) (path : string)
    (post : list string) (tzname : string) (st st1 : state)
    (evs : list event) (e : exn) :
  extract_recurring_events_ics w pre tzname st = (Ok evs, st1) ->
  (open_read w path = Raise e \/
   exists data, open_read w path = Ok data /\ from_ical w data = Raise e) ->
  extract_recurring_events_ics w (pre ++ path :: post) tzname st =
  (Raise e, with_opened st1 (opened st1 ++ [path])).
Proof.
  rewrite !extract_recurring_events_ics_run, for_each_file_app.
  destruct (for_each_file _ _ pre _) as [[[]|x] st0]; [|discriminate].
  intros [= _ <-] Hload. simpl. unfold bind.
  destruct Hload as [H1|[data [H1 H2]]].
  - now rewrite (process_file_unreadable _ _ _ _ _ H1).
  - now rewrite (process_file_unparsable _ _ _ _ _ _ H1 H2).
Qed.

(** Reading and parsing a file happen before the guarded block: when the
    files before [path] went through and [path] cannot be read, or its
    content cannot be parsed, the exception leaves the extraction and the
    run; no warning is printed for [path], no later file is opened and
    nothing is written. *)
Lemma unloadable_file_aborts_run :
  forall (w : world) (pre : list string) (path : string)
         (post : list string) (date tzname output : string)
         (st st1 : state) (evs : list event) (e : exn),
    extract_recurring_events_ics w pre tzname st = (Ok evs, st1) ->
    (open_read w path = Raise e \/
     exists data, open_read w path = Ok data /\ from_ical w data = Raise e) ->
    main w (pre ++ path :: post) date tzname output st =
      (Raise e, with_opened st1 (opened st1 ++ [path])) /\
    console (with_opened st1 (opened st1 ++ [path])) = console st1 /\
    written (with_opened st1 (opened st1 ++ [path])) = written st.
Proof.
  intros w pre path post date tzname output st st1 evs e Hpre Hload.
  split; [|split].
  - unfold main, bind at 1.
    now rewrite (extract_unloadable w pre path post tzname st st1 evs e
                   Hpre Hload).
  - reflexivity.
  - simpl.
    pose proof (extract_between_files w (fun _ => True) pre tzname st
                  (emits_only_True w)) as (_ & Hwritten & _).
    now rewrite Hpre in Hwritten.
Qed.

Lemma unloadable_file_aborts_run_witness :
  main sample_world (["standup.ics"] ++ "notes.txt" :: ["offsite.ics"])
    "2024-01-15" "UTC" "out" initial_state =
  (Raise (ValueError "Content line could not be parsed"),
   {| console := []; alarm := None;
      opened := ["standup.ics"; "notes.txt"]; written := [];
      all_events := [standup_event];
      filtered_events := Some [standup_event] |}).
Proof.
  refine (proj1 (unloadable_file_aborts_run sample_world ["standup.ics"]
                   "notes.txt" ["offsite.ics"] "2024-01-15" "UTC" "out"
                   initial_state
                   {| console := []; alarm := None;
                      opened := ["standup.ics"]; written := [];
                      all_events := [standup_event];
                      filtered_events := Some [standup_event] |}
                   [standup_event]
                   (ValueError "Content line could not be parsed") _ _)).
  - reflexivity.
  - right. exists "notes.txt". split; reflexivity.
Defined.

(** C2: the recovery of lines 150-156 does not reach the reading and the
    parsing of lines 82-86.  With an unreadable first file the run ends
    on the [OSError], prints no warning and never opens the second file,
    which is a well-formed calendar; the same happens on a first file
    that is not a calendar. *)
Theorem unreadable_file_is_not_skipped :
  main sample_world ["missing.ics"; "standup.ics"] "2024-01-15" "UTC" "out"
    initial_state =
  (Raise (OSError "No such file or directory"),
   {| console := []; alarm := None; opened := ["missing.ics"];
      written := []; all_events := []; filtered_events := None |}) /\
  main sample_world ["notes.txt"; "standup.ics"] "2024-01-15" "UTC" "out"
    initial_state =
  (Raise (ValueError "Content line could not be parsed"),
   {| console := []; alarm := None; opened := ["notes.txt"];
      written := []; all_events := []; filtered_events := None |}).
Proof. split; reflexivity. Qed.

(** ** A malformed target date *)

Lemma filter_events_by_date_malformed (events : list event)
    (date : string) (e : exn) :
  strptime_Ymd date = Raise e ->
  filter_events_by_date events date = Raise e.
Proof. intros H. unfold filter_events_by_date. now rewrite H. Qed.

(** C7, as the code has it: the target date is first parsed by
    [filter_events_by_date], after the extraction.  When [strptime]
    rejects it, the run ends in the state the extraction left, every
    input file having been processed as far as the extraction went, with
    the [ValueError] of [strptime] when the extraction returned and with
    the extraction's own exception otherwise; nothing is written. *)
Theorem malformed_date_raises_after_extraction :
  forall (w : world) (ics_files : list string)
         (date timezone output : string) (st : state) (e : exn),
    strptime_Ymd date = Raise e ->
    main w ics_files date timezone output st =
      (match fst (extract_recurring_events_ics w ics_files timezone st) with
       | Ok _ => Raise e
       | Raise x => Raise x
       end,
       snd (extract_recurring_events_ics w ics_files timezone st)) /\
    written (snd (main w ics_files date timezone output st)) = written st.
Proof.
  intros w ics_files date timezone output st e Hdate.
  assert (Hmain :
    main w ics_files date timezone output st =
      (match fst (extract_recurring_events_ics w ics_files timezone st) with
       | Ok _ => Raise e
       | Raise x => Raise x
       end,
       snd (extract_recurring_events_ics w ics_files timezone st))).
  { unfold main, bind at 1.
    destruct (extract_recurring_events_ics w ics_files timezone st)
      as [[evs|x] st1]; simpl; [|reflexivity].
    unfold bind at 1, lift.
    now rewrite (filter_events_by_date_malformed evs date e Hdate). }
  split; [exact Hmain|].
  rewrite Hmain. simpl.
  now pose proof (extract_between_files w (fun _ => True) ics_files timezone
                    st (emits_only_True w)) as (_ & Hwritten & _).
Qed.

Lemma malformed_date_raises_after_extraction_witness :
  main sample_world ["standup.ics"; "offsite.ics"] "15/01/2024" "UTC" "out"
    initial_state =
  (Raise (ValueError "time data does not match format '%Y-%m-%d'"),
   snd (extract_recurring_events_ics sample_world
          ["standup.ics"; "offsite.ics"] "UTC" initial_state)).
Proof.
  exact (proj1 (malformed_date_raises_after_extraction sample_world
                  ["standup.ics"; "offsite.ics"] "15/01/2024" "UTC" "out"
                  initial_state
                  (ValueError "time data does not match format '%Y-%m-%d'")
                  eq_refl)).
Defined.

(** C7 as stated fails: with the date ["tomorrow"] the run ends on the
    [ValueError] only after the input file was opened, expanded and its
    occurrence kept. *)
Lemma malformed_date_fails_after_file_processing :
  main sample_world ["standup.ics"] "tomorrow" "UTC" "out" initial_state =
  (Raise (ValueError "time data does not match format '%Y-%m-%d'"),
   {| console := []; alarm := None; opened := ["standup.ics"];
      written := []; all_events := [standup_event];
      filtered_events := Some [standup_event] |}).
Proof. reflexivity. Qed.

(** ** A failure before the loop starts *)

(** C1: the expansion of ["huge.ics"] is cut by the alarm before the
    loop starts, so [filtered_events] is not rebound for that file.  After
    ["standup.ics"] the name still holds the stand-up, which is added to
    the result a second time; as the first file of a run the name is
    unbound, and the [UnboundLocalError] ends the run before the second
    file is opened. *)
Theorem timeout_before_loop_reuses_previous_file :
  extract_recurring_events_ics sample_world ["standup.ics"; "huge.ics"]
    "UTC" initial_state =
  (Ok [standup_event; standup_event],
   {| console := [TimeoutWarning "huge.ics"]; alarm := None;
      opened := ["standup.ics"; "huge.ics"]; written := [];
      all_events := [standup_event; standup_event];
      filtered_events := Some [standup_event] |}) /\
  extract_recurring_events_ics sample_world ["huge.ics"; "standup.ics"]
    "UTC" initial_state =
  (Raise (UnboundLocalError "filtered_events"),
   {| console := [TimeoutWarning "huge.ics"]; alarm := None;
      opened := ["huge.ics"]; written := [];
      all_events := []; filtered_events := None |}).
Proof. split; reflexivity. Qed.

(** ** Parsing and printing the target date *)

Lemma append_assoc (a b c : string) :
  ((a ++ b) ++ c = a ++ (b ++ c))%string.
Proof. induction a as [|x a IH]; simpl; [|rewrite IH]; reflexivity. Qed.

Lemma append_nil_r (a : string) : (a ++ "")%string = a.
Proof. induction a as [|x a IH]; simpl; [|rewrite IH]; reflexivity. Qed.

Lemma digit_val_digit_char (k : Z) :
  0 <= k <= 9 -> digit_val (digit_char k) = Some k.
Proof. intros H. enum_from k 0 10%nat ltac:(reflexivity). Qed.

Lemma upper_char_digit_char (k : Z) :
  0 <= k <= 9 -> upper_char (digit_char k) = digit_char k.
Proof. intros H. enum_from k 0 10%nat ltac:(reflexivity). Qed.

Lemma tens_units (n : Z) :
  0 <= n < 100 -> 0 <= n / 10 <= 9 /\ 0 <= n mod 10 <= 9.
Proof.
  intros H. split.
  - split; [apply Z.div_pos; lia|].
    assert (n / 10 < 10) by (apply Z.div_lt_upper_bound; lia). lia.
  - pose proof (Z.mod_pos_bound n 10). lia.
Qed.

Lemma re_digit_digit_char (lo hi k : Z) (r : string) :
  0 <= k <= 9 ->
  re_digit lo hi (String (digit_char k) r) =
  if (lo <=? k) && (k <=? hi) then Some (k, r) else None.
Proof.
  intros H. unfold re_digit. now rewrite (digit_val_digit_char k H).
Qed.

(** A two-digit rendering, read back by two character classes. *)
Lemma re_digit2_two_digits (lo1 hi1 lo2 hi2 n : Z) (r : string) :
  0 <= n < 100 ->
  re_digit2 lo1 hi1 lo2 hi2 (two_digits n ++ r) =
  if ((lo1 <=? n / 10) && (n / 10 <=? hi1))
     && ((lo2 <=? n mod 10) && (n mod 10 <=? hi2))
  then Some (n, r) else None.
Proof.
  intros H. destruct (tens_units n H) as [Ht Hu].
  unfold re_digit2, two_digits. cbn [String.append].
  rewrite (re_digit_digit_char lo1 hi1 _ _ Ht).
  destruct ((lo1 <=? n / 10) && (n / 10 <=? hi1)); [|reflexivity].
  rewrite (re_digit_digit_char lo2 hi2 _ _ Hu).
  destruct ((lo2 <=? n mod 10) && (n mod 10 <=? hi2)); [|reflexivity].
  cbn [andb]. do 2 f_equal. pose proof (Z.div_mod n 10 ltac:(lia)). lia.
Qed.

Lemma re_digit2_any_two_digits (n : Z) (r : string) :
  0 <= n < 100 -> re_digit2 0 9 0 9 (two_digits n ++ r) = Some (n, r).
Proof.
  intros H. rewrite (re_digit2_two_digits 0 9 0 9 n r H).
  destruct (tens_units n H) as [[? ?] [? ?]].
  repeat match goal with
         | |- context [?a <=? ?b] => destruct (Z.leb_spec a b); [|lia]
         end.
  reflexivity.
Qed.

Lemma re_Y_four_digits (y : Z) (r : string) :
  0 <= y <= 9999 -> re_Y (four_digits y ++ r) = Some (y, r).
Proof.
  intros H.
  assert (Hhi : 0 <= y / 100 < 100).
  { split; [apply Z.div_pos; lia | apply Z.div_lt_upper_bound; lia]. }
  assert (Hlo : 0 <= y mod 100 < 100) by (apply Z.mod_pos_bound; lia).
  unfold re_Y, four_digits. rewrite append_assoc.
  rewrite (re_digit2_any_two_digits _ _ Hhi).
  rewrite (re_digit2_any_two_digits _ _ Hlo).
  do 2 f_equal. pose proof (Z.div_mod y 100 ltac:(lia)). lia.
Qed.

Lemma re_alt_month (R : Type) (m : Z) (r : string)
    (k : Z -> string -> option R) (x : R) :
  1 <= m <= 12 ->
  k m r = Some x ->
  re_alt re_m_alts k (two_digits m ++ r) = Some x.
Proof.
  intros H Hk.
  enum_from m 1 12%nat ltac:(cbn; rewrite Hk; reflexivity).
Qed.

Lemma re_alt_day (R : Type) (d : Z) (r : string)
    (k : Z -> string -> option R) (x : R) :
  1 <= d <= 31 ->
  k d r = Some x ->
  re_alt re_d_alts k (two_digits d ++ r) = Some x.
Proof.
  intros H Hk.
  enum_from d 1 31%nat ltac:(cbn; rewrite Hk; reflexivity).
Qed.

Lemma days_in_month_le_31 (y m : Z) : days_in_month y m <= 31.
Proof.
  unfold days_in_month.
  destruct ((m =? 2) && is_leap y); [lia|].
  unfold DAYS_IN_MONTH.
  generalize (Z.to_nat m). intros n.
  do 13 (destruct n as [|n]; [simpl; lia|]). destruct n; simpl; lia.
Qed.

Lemma re_Ymd_iso_date (d : ymd) :
  valid_ymd d ->
  re_Ymd (iso_date d) = Some (year d, month d, day d, "").
Proof.
  intros (Hy & Hm & Hd).
  pose proof (days_in_month_le_31 (year d) (month d)) as H31.
  unfold re_Ymd, iso_date.
  rewrite re_Y_four_digits by lia.
  cbn [String.append re_char Ascii.eqb Bool.eqb].
  apply re_alt_month; [exact Hm|].
  cbn [String.append re_char Ascii.eqb Bool.eqb].
  rewrite <- (append_nil_r (two_digits (day d))).
  apply re_alt_day; [lia | reflexivity].
Qed.

(** [strptime] reads a date in the form [YYYY-MM-DD] back. *)
Lemma strptime_Ymd_iso_date (d : ymd) :
  valid_ymd d -> strptime_Ymd (iso_date d) = Ok d.
Proof.
  intros Hd. unfold strptime_Ymd. rewrite (re_Ymd_iso_date d Hd).
  destruct Hd as (Hy & Hm & Hd). simpl.
  destruct (Z.ltb_spec (year d) 1); [lia|].
  destruct (Z.ltb_spec (days_in_month (year d) (month d)) (day d)); [lia|].
  simpl. now destruct d.
Qed.

(** What [strptime] accepts is a date of the calendar. *)
Lemma re_digit_range (lo hi : Z) (s r : string) (v : Z) :
  re_digit lo hi s = Some (v, r) -> lo <= v <= hi.
Proof.
  unfold re_digit. destruct s as [|c s]; [discriminate|].
  destruct (digit_val c) as [u|]; [|discriminate].
  destruct (Z.leb_spec lo u), (Z.leb_spec u hi); simpl; intros [= <- _];
    lia || discriminate.
Qed.

Lemma re_digit2_range (lo1 hi1 lo2 hi2 : Z) (s r : string) (v : Z) :
  re_digit2 lo1 hi1 lo2 hi2 s = Some (v, r) ->
  10 * lo1 + lo2 <= v <= 10 * hi1 + hi2.
Proof.
  unfold re_digit2.
  destruct (re_digit lo1 hi1 s) as [[a r1]|] eqn:Ha; [|discriminate].
  destruct (re_digit lo2 hi2 r1) as [[b r2]|] eqn:Hb; [|discriminate].
  intros Hv. assert (v = 10 * a + b) by congruence.
  apply re_digit_range in Ha, Hb. lia.
Qed.

Lemma re_space_digit_range (s r : string) (v : Z) :
  re_space_digit s = Some (v, r) -> 1 <= v <= 9.
Proof.
  unfold re_space_digit. destruct (re_char " " s); [|discriminate].
  apply re_digit_range.
Qed.

Lemma re_alt_inv (R : Type) (alts : list (string -> option (Z * string)))
    (k : Z -> string -> option R) (s : string) (x : R) :
  re_alt alts k s = Some x ->
  exists p v r, In p alts /\ p s = Some (v, r) /\ k v r = Some x.
Proof.
  induction alts as [|p ps IH]; simpl; [discriminate|].
  destruct (p s) as [[v r]|] eqn:Hp.
  - destruct (k v r) as [y|] eqn:Hk.
    + intros [= <-]. exists p, v, r. auto.
    + intros H. destruct (IH H) as (q & v' & r' & Hin & Hq & Hk').
      exists q, v', r'. auto.
  - intros H. destruct (IH H) as (q & v' & r' & Hin & Hq & Hk').
    exists q, v', r'. auto.
Qed.

Lemma re_m_alts_range (p : string -> option (Z * string)) (s r : string)
    (v : Z) :
  In p re_m_alts -> p s = Some (v, r) -> 1 <= v <= 12.
Proof.
  unfold re_m_alts. intros [<-|[<-|[<-|[]]]] H.
  - apply re_digit2_range in H. lia.
  - apply re_digit2_range in H. lia.
  - apply re_digit_range in H. lia.
Qed.

Lemma re_d_alts_range (p : string -> option (Z * string)) (s r : string)
    (v : Z) :
  In p re_d_alts -> p s = Some (v, r) -> 1 <= v <= 31.
Proof.
  unfold re_d_alts. intros [<-|[<-|[<-|[<-|[<-|[]]]]]] H.
  - apply re_digit2_range in H. lia.
  - apply re_digit2_range in H. lia.
  - apply re_digit2_range in H. lia.
  - apply re_digit_range in H. lia.
  - apply re_space_digit_range in H. lia.
Qed.

Lemma re_Ymd_range (s rest : string) (y m d : Z) :
  re_Ymd s = Some (y, m, d, rest) ->
  0 <= y <= 9999 /\ 1 <= m <= 12 /\ 1 <= d <= 31.
Proof.
  unfold re_Ymd, re_Y.
  destruct (re_digit2 0 9 0 9 s) as [[a r]|] eqn:Ha; [|discriminate].
  destruct (re_digit2 0 9 0 9 r) as [[b r']|] eqn:Hb; [|discriminate].
  destruct (re_char "-" r') as [r1|]; [|discriminate].
  intros H. apply re_alt_inv in H as (p & m' & r2 & Hp & Hm & H).
  destruct (re_char "-" r2) as [r3|]; [|discriminate].
  apply re_alt_inv in H as (q & d' & r4 & Hq & Hd & Heq).
  assert (Hy : y = 100 * a + b) by congruence.
  assert (m = m') by congruence. assert (d = d') by congruence. subst m' d'.
  apply re_digit2_range in Ha, Hb.
  apply (re_m_alts_range p _ _ _ Hp) in Hm.
  apply (re_d_alts_range q _ _ _ Hq) in Hd.
  lia.
Qed.

Lemma strptime_Ymd_valid (s : string) (d : ymd) :
  strptime_Ymd s = Ok d -> valid_ymd d.
Proof.
  unfold strptime_Ymd.
  destruct (re_Ymd s) as [[[[y m] dd] rest]|] eqn:Hre; [|discriminate].
  destruct (negb (rest =? "")%string); [discriminate|].
  destruct (Z.ltb_spec y 1); [discriminate|].
  destruct (Z.ltb_spec (days_in_month y m) dd); [discriminate|].
  simpl. intros [= <-]. apply re_Ymd_range in Hre.
  unfold valid_ymd; simpl. lia.
Qed.

(** ** The header of the digest *)

Lemma upper_app (a b : string) :
  upper (a ++ b) = (upper a ++ upper b)%string.
Proof. induction a as [|c a IH]; simpl; [|rewrite IH]; reflexivity. Qed.

Lemma upper_month_name (m : Z) :
  upper (month_name m) = nth (Z.to_nat m) MONTH_NAMES_UPPER "".
Proof.
  unfold month_name. generalize (Z.to_nat m). intros n.
  do 13 (destruct n as [|n]; [reflexivity|]). destruct n; reflexivity.
Qed.

Lemma upper_two_digits (n : Z) :
  0 <= n < 100 -> upper (two_digits n) = two_digits n.
Proof.
  intros H. destruct (tens_units n H) as [Ht Hu].
  unfold two_digits. simpl.
  now rewrite !upper_char_digit_char.
Qed.

Lemma header_of_valid_date (d : ymd) :
  valid_ymd d ->
  ("--- " ++ upper (strftime_B_d d) ++ " ---" ++ NEWLINE)%string
  = header_line d.
Proof.
  intros (_ & _ & Hd).
  pose proof (days_in_month_le_31 (year d) (month d)).
  unfold header_line, strftime_B_d.
  rewrite !upper_app, upper_month_name, upper_two_digits by lia.
  now rewrite !append_assoc.
Qed.

(** C10: for the empty list of occurrences and a target date in the form
    [YYYY-MM-DD], the formatter returns the header line, the month name
    in upper case and the day on two digits between the dashes, ended by
    one newline, and nothing after it; the same holds for every string
    [strptime] accepts. *)
Theorem empty_digest_is_header :
  forall (w : world),
    (forall d,
        valid_ymd d ->
        format_events_for_text_file w [] (iso_date d) = Ok (header_line d)) /\
    (forall s d,
        strptime_Ymd s = Ok d ->
        format_events_for_text_file w [] s = Ok (header_line d)).
Proof.
  intros w.
  assert (Hany : forall s d,
             strptime_Ymd s = Ok d ->
             format_events_for_text_file w [] s = Ok (header_line d)).
  { intros s d Hs. unfold format_events_for_text_file.
    cbn [for_event_in_events]. rewrite Hs.
    cbn [sort_strings app join]. rewrite append_nil_r.
    now rewrite (header_of_valid_date d (strptime_Ymd_valid s d Hs)). }
  split; [|exact Hany].
  intros d Hd. apply Hany, strptime_Ymd_iso_date, Hd.
Qed.

Lemma empty_digest_is_header_witness :
  format_events_for_text_file sample_world [] "2024-02-29"
  = Ok ("--- FEBRUARY 29 ---" ++ NEWLINE)%string.
Proof.
  apply (proj1 (empty_digest_is_header sample_world)
           {| year := 2024; month := 2; day := 29 |}).
  unfold valid_ymd. simpl. vm_compute. intuition discriminate.
Defined.

(** ** The order of the timed lines *)
























Lemma all_day_classification_exact_witness :
  In offsite_event
    (map fst (all_day_entries sample_world 0 [offsite_event; standup_event]))
  /\
  In standup_event
    (map fst (timed_entries sample_world 0 [offsite_event; standup_event])).
Proof.
  destruct (all_day_classification_exact sample_world 0
              [offsite_event; standup_event]) as (_ & Hall & Htimed).
  split.
  - apply Hall. split; [now left | split; reflexivity].
  - apply Htimed. split; [now right; left|].
    intros [H _]. vm_compute in H. discriminate H.
Defined.

(** * Further properties of the script *)

(** ** The filter on the target date *)

Lemma filter_twice {A} (f : A -> bool) (l : list A) :
  filter f (filter f l) = filter f l.
Proof.
  induction l as [|x l IH]; simpl; [reflexivity|].
  destruct (f x) eqn:E; simpl; [rewrite E, IH|]; auto.
Qed.

Lemma filter_events_by_date_parsed (events : list event) (date : string)
    (d : ymd) :
  strptime_Ymd date = Ok d ->
  filter_events_by_date events date = Ok (filter (on_day d) events).
Proof. intros H. unfold filter_events_by_date. now rewrite H. Qed.

(** X1: for a date [strptime] accepts, [filter_events_by_date] returns
    the occurrences whose start date is that day and only those, never
    more than it was given, and filtering its result again changes
    nothing. *)
Theorem filter_events_by_date_keeps_the_day :
  forall (events : list event) (date : string) (d : ymd),
    strptime_Ymd date = Ok d ->
    exists kept,
      filter_events_by_date events date = Ok kept /\
      (forall e, In e kept <->
                 In e events /\ dt_date (start_time e) = ymd2ord d) /\
      (List.length kept <= List.length events)%nat /\
      filter_events_by_date kept date = Ok kept.
Proof.
  intros events date d Hd. exists (filter (on_day d) events).
  split; [now apply filter_events_by_date_parsed|]. split; [|split].
  - intros e. rewrite filter_In. unfold on_day. now rewrite Z.eqb_eq.
  - apply filter_length_le.
  - rewrite (filter_events_by_date_parsed _ date d Hd). now rewrite filter_twice.
Qed.

Lemma filter_events_by_date_keeps_the_day_witness :
  exists kept,
    filter_events_by_date [standup_event; backwards_event] "2024-01-15"
      = Ok kept /\
    (forall e, In e kept <->
               In e [standup_event; backwards_event] /\
               dt_date (start_time e)
               = ymd2ord {| year := 2024; month := 1; day := 15 |}) /\
    (List.length kept <= 2)%nat /\
    filter_events_by_date kept "2024-01-15" = Ok kept.
Proof.
  exact (filter_events_by_date_keeps_the_day
           [standup_event; backwards_event] "2024-01-15"
           {| year := 2024; month := 1; day := 15 |} eq_refl).
Defined.

(** X2: filtering the occurrences of two files put together is putting
    together what the filter keeps of each. *)
Theorem filter_events_by_date_app :
  forall (a b ka kb : list event) (date : string),
    filter_events_by_date a date = Ok ka ->
    filter_events_by_date b date = Ok kb ->
    filter_events_by_date (a ++ b) date = Ok (ka ++ kb).
Proof.
  intros a b ka kb date. unfold filter_events_by_date.
  destruct (strptime_Ymd date) as [d|e]; [|discriminate].
  intros [= <-] [= <-]. now rewrite filter_app.
Qed.

Lemma filter_events_by_date_app_witness :
  filter_events_by_date ([standup_event] ++ [offsite_event]) "2024-01-15"
  = Ok ([standup_event] ++ [offsite_event]).
Proof.
  apply (filter_events_by_date_app [standup_event] [offsite_event]);
    reflexivity.
Defined.

(** ** What [strptime] accepts *)

(** X3: a date of the calendar written as [YYYY-MM-DD] is read back as
    that date, and whatever [strptime] returns is a date of the calendar:
    year 1 to 9999, month 1 to 12, and a day the month has in that year. *)
Theorem strptime_Ymd_round_trip :
  forall (d : ymd),
    (valid_ymd d -> strptime_Ymd (iso_date d) = Ok d) /\
    (forall s, strptime_Ymd s = Ok d -> valid_ymd d).
Proof.
  intros d. split.
  - apply strptime_Ymd_iso_date.
  - intros s. apply strptime_Ymd_valid.
Qed.

Lemma strptime_Ymd_round_trip_witness :
  strptime_Ymd "2024-02-29" = Ok {| year := 2024; month := 2; day := 29 |} /\
  valid_ymd {| year := 2023; month := 12; day := 31 |}.
Proof.
  split.
  - apply (proj1 (strptime_Ymd_round_trip
                    {| year := 2024; month := 2; day := 29 |})).
    unfold valid_ymd. simpl. vm_compute. intuition discriminate.
  - exact (proj2 (strptime_Ymd_round_trip
                    {| year := 2023; month := 12; day := 31 |})
             "2023-12-31" eq_refl).
Defined.

Lemma re_Ymd_iso_date_then (d : ymd) (rest : string) :
  valid_ymd d ->
  re_Ymd (iso_date d ++ rest) = Some (year d, month d, day d, rest).
Proof.
  intros (Hy & Hm & Hd).
  pose proof (days_in_month_le_31 (year d) (month d)) as H31.
  unfold re_Ymd, iso_date.
  rewrite !append_assoc.
  rewrite re_Y_four_digits by lia.
  cbn [String.append re_char Ascii.eqb Bool.eqb].
  apply re_alt_month; [exact Hm|].
  cbn [String.append re_char Ascii.eqb Bool.eqb].
  apply re_alt_day; [lia | reflexivity].
Qed.

(** X4: text after the date is not ignored: a date followed by anything,
    a time of day for instance, is rejected with a [ValueError]. *)
Theorem strptime_Ymd_rejects_trailing_text :
  forall (d : ymd) (rest : string),
    valid_ymd d ->
    rest <> "" ->
    strptime_Ymd (iso_date d ++ rest) =
    Raise (ValueError "unconverted data remains").
Proof.
  intros d rest Hd Hrest. unfold strptime_Ymd.
  rewrite (re_Ymd_iso_date_then d rest Hd).
  destruct (String.eqb_spec rest ""); [contradiction | reflexivity].
Qed.

Lemma strptime_Ymd_rejects_trailing_text_witness :
  strptime_Ymd "2024-01-15T09:00" =
  Raise (ValueError "unconverted data remains").
Proof.
  apply (strptime_Ymd_rejects_trailing_text
           {| year := 2024; month := 1; day := 15 |} "T09:00").
  - unfold valid_ymd. simpl. vm_compute. intuition discriminate.
  - discriminate.
Defined.

Lemma re_alt_month_unpadded (R : Type) (m : Z) (r : string)
    (k : Z -> string -> option R) (x : R) :
  1 <= m <= 12 ->
  k m (String "-" r) = Some x ->
  re_alt re_m_alts k (unpadded m ++ String "-" r) = Some x.
Proof.
  intros H Hk.
  enum_from m 1 12%nat ltac:(cbn; rewrite Hk; reflexivity).
Qed.

Lemma re_alt_day_unpadded (R : Type) (d : Z)
    (k : Z -> string -> option R) (x : R) :
  1 <= d <= 31 ->
  k d "" = Some x ->
  re_alt re_d_alts k (unpadded d) = Some x.
Proof.
  intros H Hk.
  enum_from d 1 31%nat ltac:(cbn; rewrite Hk; reflexivity).
Qed.

(** X5: the month and the day need no padding: a date of the calendar
    written as in [2024-1-5] is accepted and read as the same date. *)
Theorem strptime_Ymd_accepts_unpadded :
  forall (d : ymd),
    valid_ymd d -> strptime_Ymd (loose_date d) = Ok d.
Proof.
  intros d (Hy & Hm & Hd).
  pose proof (days_in_month_le_31 (year d) (month d)) as H31.
  assert (Hre : re_Ymd (loose_date d) = Some (year d, month d, day d, "")).
  { unfold re_Ymd, loose_date.
    rewrite re_Y_four_digits by lia.
    cbn [String.append re_char Ascii.eqb Bool.eqb].
    apply re_alt_month_unpadded; [exact Hm|].
    cbn [String.append re_char Ascii.eqb Bool.eqb].
    apply re_alt_day_unpadded; [lia | reflexivity]. }
  unfold strptime_Ymd. rewrite Hre. simpl.
  destruct (Z.ltb_spec (year d) 1); [lia|].
  destruct (Z.ltb_spec (days_in_month (year d) (month d)) (day d)); [lia|].
  simpl. now destruct d.
Qed.

Lemma strptime_Ymd_accepts_unpadded_witness :
  strptime_Ymd "2024-1-5" = Ok {| year := 2024; month := 1; day := 5 |}.
Proof.
  apply (strptime_Ymd_accepts_unpadded
           {| year := 2024; month := 1; day := 5 |}).
  unfold valid_ymd. simpl. vm_compute. intuition discriminate.
Defined.

(** ** The layout of the digest *)

Lemma insert_sorted_Permutation (s : string) (l : list string) :
  Permutation (s :: l) (insert_sorted s l).
Proof.
  induction l as [|x l IH]; simpl; [reflexivity|].
  destruct (String.leb s x); [reflexivity|].
  rewrite perm_swap. now constructor.
Qed.

Lemma sort_strings_Permutation (l : list string) :
  Permutation l (sort_strings l).
Proof.
  induction l as [|s l IH]; simpl; [constructor|].
  rewrite <- insert_sorted_Permutation. now constructor.
Qed.

Lemma lex_le_false (a b : string) : String.leb a b = false -> lex_le b a.
Proof.
  intros H. unfold lex_le.
  destruct (String.leb_total a b) as [H'|H']; congruence.
Qed.

Lemma insert_sorted_HdRel (x s : string) (l : list string) :
  lex_le x s -> HdRel lex_le x l -> HdRel lex_le x (insert_sorted s l).
Proof.
  intros Hxs Hhd. destruct l as [|y l]; simpl.
  - now constructor.
  - destruct (String.leb s y); constructor;
      [exact Hxs | now inversion Hhd].
Qed.

Lemma insert_sorted_Sorted (s : string) (l : list string) :
  Sorted lex_le l -> Sorted lex_le (insert_sorted s l).
Proof.
  induction 1 as [|x l Hs IH Hhd]; simpl.
  - repeat constructor.
  - destruct (String.leb s x) eqn:E.
    + constructor; [now constructor|]. now constructor.
    + constructor; [exact IH|].
      apply insert_sorted_HdRel; [now apply lex_le_false | exact Hhd].
Qed.

Lemma sort_strings_Sorted (l : list string) : Sorted lex_le (sort_strings l).
Proof.
  induction l as [|s l IH]; simpl; [constructor|].
  now apply insert_sorted_Sorted.
Qed.

Lemma sort_strings_of_Sorted (l : list string) :
  Sorted lex_le l -> sort_strings l = l.
Proof.
  induction 1 as [|x l Hs IH Hhd]; simpl; [reflexivity|].
  rewrite IH. destruct Hhd as [|y l Hxy]; simpl; [reflexivity|].
  unfold lex_le in Hxy. now rewrite Hxy.
Qed.

(** X6: for a date [strptime] accepts, the digest is the header line
    followed by the lines joined by newlines, the sorted timed lines
    first and the sorted all-day summaries after them; for a date it
    rejects, the formatter raises the exception of [strptime], whatever
    the occurrences. *)
Theorem format_events_for_text_file_layout :
  forall (w : world) (events : list event) (filter_date : string),
    (forall d,
        strptime_Ymd filter_date = Ok d ->
        format_events_for_text_file w events filter_date =
        Ok (header_line d
            ++ join NEWLINE
                 (sort_strings (map timed_line (timed_entries w 0 events))
                  ++ sort_strings (map snd (all_day_entries w 0 events))))
             %string) /\
    (forall e,
        strptime_Ymd filter_date = Raise e ->
        format_events_for_text_file w events filter_date = Raise e).
Proof.
  intros w events filter_date.
  unfold format_events_for_text_file.
  rewrite for_event_in_events_spec. cbn [app].
  split.
  - intros d Hd. rewrite Hd.
    now rewrite (header_of_valid_date d (strptime_Ymd_valid _ d Hd)).
  - intros e He. now rewrite He.
Qed.

Lemma format_events_for_text_file_layout_witness :
  format_events_for_text_file sample_world
    [offsite_event; standup_event; gym_event] "2024-01-15" =
  Ok ("--- JANUARY 15 ---" ++ NEWLINE ++ "07:30 Gym" ++ NEWLINE
      ++ "09:00 Standup" ++ NEWLINE ++ "Team Offsite")%string /\
  format_events_for_text_file sample_world [standup_event] "15 Jan" =
  Raise (ValueError "time data does not match format '%Y-%m-%d'").
Proof.
  split.
  - exact (proj1 (format_events_for_text_file_layout sample_world
                    [offsite_event; standup_event; gym_event] "2024-01-15")
             {| year := 2024; month := 1; day := 15 |} eq_refl).
  - exact (proj2 (format_events_for_text_file_layout sample_world
                    [standup_event] "15 Jan")
             (ValueError "time data does not match format '%Y-%m-%d'")
             eq_refl).
Defined.

(** X7: each of the two groups of the digest holds the lines rendered
    for it, all of them and nothing else, in lexicographic order, and a
    group that is already in order is left as it is. *)
Theorem digest_groups_sorted :
  forall (w : world) (n : nat) (events : list event)
         (all_day timed : list string),
    for_event_in_events w n events [] [] = Ok (all_day, timed) ->
    Permutation (map snd (all_day_entries w n events))
      (sort_strings all_day) /\
    Sorted lex_le (sort_strings all_day) /\
    Permutation (map timed_line (timed_entries w n events))
      (sort_strings timed) /\
    Sorted lex_le (sort_strings timed) /\
    (Sorted lex_le all_day -> sort_strings all_day = all_day) /\
    (Sorted lex_le timed -> sort_strings timed = timed).
Proof.
  intros w n events all_day timed Hloop.
  rewrite for_event_in_events_spec in Hloop. simpl in Hloop.
  injection Hloop as <- <-.
  repeat split; auto using sort_strings_Permutation, sort_strings_Sorted,
    sort_strings_of_Sorted.
Qed.

Lemma digest_groups_sorted_witness :
  Permutation
    (map timed_line
       (timed_entries sample_world 0 [standup_event; gym_event]))
    ["07:30 Gym"; "09:00 Standup"] /\
  Sorted lex_le ["07:30 Gym"; "09:00 Standup"].
Proof.
  destruct (digest_groups_sorted sample_world 0 [standup_event; gym_event]
              [] ["09:00 Standup"; "07:30 Gym"] eq_refl)
    as (_ & _ & Hperm & Hsorted & _).
  split; [exact Hperm | exact Hsorted].
Defined.

(** ** The width of the digest *)

Lemma length_append (a b : string) :
  String.length (a ++ b) = (String.length a + String.length b)%nat.
Proof. induction a as [|c a IH]; simpl; [|rewrite IH]; reflexivity. Qed.

Lemma summary_text_length (w : world) (n : nat) (title : string) (k : nat) :
  (String.length (summary_text w n title (Z.of_nat k)) <= k)%nat.
Proof.
  unfold summary_text. rewrite summarize_with_gpt_cases.
  apply py_slice_to_length.
Qed.

Lemma digest_entries_lengths (w : world) (events : list event) :
  forall n,
    Forall (fun p => (String.length (snd p)
                      <= if is_all_day (fst p) then 22 else 16)%nat)
      (digest_entries w n events).
Proof.
  induction events as [|e rest IH]; intros n; simpl; constructor; [|apply IH].
  simpl. destruct (is_all_day e).
  - apply (summary_text_length w n (title e) 22).
  - apply (summary_text_length w n (title e) 16).
Qed.

Lemma timed_line_length (p : event * string) :
  String.length (timed_line p) = (6 + String.length (snd p))%nat.
Proof.
  unfold timed_line, strftime_H_M, two_digits.
  now rewrite !length_append.
Qed.

(** X8: no line of the digest is wider than the 22 columns of the board:
    every timed line and every all-day line has at most 22 characters,
    whatever the titles and whatever the summariser answers, and the
    header of a date of the calendar has at most 20 characters before its
    newline. *)
Theorem digest_lines_fit_the_board :
  forall (w : world) (n : nat) (events : list event)
         (all_day timed : list string),
    for_event_in_events w n events [] [] = Ok (all_day, timed) ->
    Forall (fun line => (String.length line <= 22)%nat)
      (sort_strings timed ++ sort_strings all_day) /\
    (forall d, valid_ymd d -> (String.length (header_line d) <= 21)%nat).
Proof.
  intros w n events all_day timed Hloop.
  rewrite for_event_in_events_spec in Hloop. simpl in Hloop.
  injection Hloop as <- <-.
  pose proof (digest_entries_lengths w events n) as Hlen.
  rewrite Forall_forall in Hlen.
  split.
  - apply Forall_app. split.
    + eapply Permutation_Forall; [apply sort_strings_Permutation|].
      apply Forall_forall. intros line Hin.
      apply in_map_iff in Hin as (p & <- & Hp).
      apply filter_In in Hp as [Hp Htimed].
      specialize (Hlen p Hp). apply negb_true_iff in Htimed.
      rewrite Htimed in Hlen. rewrite timed_line_length. lia.
    + eapply Permutation_Forall; [apply sort_strings_Permutation|].
      apply Forall_forall. intros line Hin.
      apply in_map_iff in Hin as (p & <- & Hp).
      apply filter_In in Hp as [Hp Hall].
      specialize (Hlen p Hp). now rewrite Hall in Hlen.
  - intros [y m dd] (_ & Hm & _). simpl in Hm.
    unfold header_line, two_digits. simpl month. simpl day.
    enum_from m 1 12%nat ltac:(simpl; lia).
Qed.

Lemma digest_lines_fit_the_board_witness :
  Forall (fun line => (String.length line <= 22)%nat)
    (sort_strings ["09:00 Standup"] ++ sort_strings ["Team Offsite"]) /\
  (forall d, valid_ymd d -> (String.length (header_line d) <= 21)%nat).
Proof.
  exact (digest_lines_fit_the_board sample_world 0
           [offsite_event; standup_event] ["Team Offsite"] ["09:00 Standup"]
           eq_refl).
Defined.

(** ** The sort on the start *)

Lemma insert_by_start_Permutation (local : Z -> Z) (e : event)
    (l : list event) :
  Permutation (e :: l) (insert_by_start local e l).
Proof.
  induction l as [|x l IH]; simpl; [reflexivity|].
  destruct (_ <? _); [|reflexivity].
  rewrite perm_swap. now constructor.
Qed.

Lemma sort_by_start_Permutation (local : Z -> Z) (l : list event) :
  Permutation l (sort_by_start local l).
Proof.
  induction l as [|e l IH]; simpl; [constructor|].
  rewrite <- insert_by_start_Permutation. now constructor.
Qed.

Lemma insert_by_start_HdRel (local : Z -> Z) (x e : event) (l : list event) :
  start_le local x e ->
  HdRel (start_le local) x l ->
  HdRel (start_le local) x (insert_by_start local e l).
Proof.
  intros Hxe Hhd. destruct l as [|y l]; simpl.
  - now constructor.
  - destruct (_ <? _); constructor; [now inversion Hhd | exact Hxe].
Qed.

Lemma insert_by_start_Sorted (local : Z -> Z) (e : event) (l : list event) :
  Sorted (start_le local) l ->
  Sorted (start_le local) (insert_by_start local e l).
Proof.
  induction 1 as [|x l Hs IH Hhd]; simpl.
  - repeat constructor.
  - destruct (Z.ltb_spec (utc_instant local (start_time x))
                (utc_instant local (start_time e))).
    + constructor; [exact IH|].
      apply insert_by_start_HdRel; [unfold start_le; lia | exact Hhd].
    + constructor; [now constructor|]. now constructor.
Qed.

Lemma sort_by_start_Sorted (local : Z -> Z) (l : list event) :
  Sorted (start_le local) (sort_by_start local l).
Proof.
  induction l as [|e l IH]; simpl; [constructor|].
  now apply insert_by_start_Sorted.
Qed.

(** Inserting [e] changes the occurrences of one instant only by [e]
    itself, put in front of them. *)
Lemma insert_by_start_same_instant (local : Z -> Z) (k : Z) (e : event)
    (l : list event) :
  filter (fun x => utc_instant local (start_time x) =? k)
    (insert_by_start local e l) =
  filter (fun x => utc_instant local (start_time x) =? k) (e :: l).
Proof.
  induction l as [|x l IH]; [reflexivity|].
  cbn [insert_by_start].
  destruct (Z.ltb_spec (utc_instant local (start_time x))
              (utc_instant local (start_time e))) as [Hlt|Hge];
    [|reflexivity].
  cbn [filter] in *. rewrite IH.
  destruct (Z.eqb_spec (utc_instant local (start_time e)) k) as [He|He];
    [|reflexivity].
  destruct (Z.eqb_spec (utc_instant local (start_time x)) k) as [Hx|Hx];
    [lia | reflexivity].
Qed.

(** X9: the sort on the start time returns the same occurrences in
    non-decreasing order of their start instant, and it is stable:
    occurrences that start at the same instant keep the order they had. *)
Theorem sort_by_start_sorted_stable :
  forall (local : Z -> Z) (l : list event),
    Permutation l (sort_by_start local l) /\
    StronglySorted (start_le local) (sort_by_start local l) /\
    (forall k,
        filter (fun x => utc_instant local (start_time x) =? k)
          (sort_by_start local l) =
        filter (fun x => utc_instant local (start_time x) =? k) l).
Proof.
  intros local l. split; [apply sort_by_start_Permutation|]. split.
  - apply Sorted_StronglySorted; [|apply sort_by_start_Sorted].
    intros a b c. unfold start_le. lia.
  - intros k. induction l as [|e l IH]; [reflexivity|].
    cbn [sort_by_start fold_right].
    fold (sort_by_start local l).
    rewrite insert_by_start_same_instant. cbn [filter]. now rewrite IH.
Qed.

(** ** A run that reaches the end *)

Lemma format_events_for_text_file_parsed (w : world) (events : list event)
    (date : string) (d : ymd) :
  strptime_Ymd date = Ok d ->
  format_events_for_text_file w events date = Ok (digest_text w events d).
Proof.
  intros Hd. unfold format_events_for_text_file, digest_text.
  rewrite for_event_in_events_spec. cbn [app]. rewrite Hd.
  now rewrite (header_of_valid_date d (strptime_Ymd_valid _ d Hd)).
Qed.

Lemma for_event_add_built (w : world) (events : list event) (st : state) :
  Forall (fun e => ics_Event w e = Ok tt) events ->
  for_event_add w events st = (Ok tt, st).
Proof.
  induction 1 as [|e events He Hrest IH]; simpl; [reflexivity|].
  unfold bind, lift. now rewrite He.
Qed.

Lemma main_run (w : world) (ics_files : list string)
    (date timezone output : string) (st st1 : state) (evs : list event)
    (d : ymd) (serialized : string) :
  extract_recurring_events_ics w ics_files timezone st = (Ok evs, st1) ->
  strptime_Ymd date = Ok d ->
  outputs_succeed w output (day_events w evs d)
    (digest_text w (day_events w evs d) d) serialized ->
  main w ics_files date timezone output st =
  (Ok tt,
   {| console :=
        (console st1
         ++ [WrittenTo "Filtered calendar"
               (path_join output "combined_expanded.ics")])
        ++ [WrittenTo "Formatted events"
              (path_join output "combined_events.txt")];
      alarm := alarm st1;
      opened := opened st1;
      written :=
        (((written st1
           ++ [(path_join output "combined_expanded.ics", Truncated)])
          ++ [(path_join output "combined_expanded.ics",
               TextFile serialized)])
         ++ [(path_join output "combined_events.txt", Truncated)])
        ++ [(path_join output "combined_events.txt",
             TextFile (digest_text w (day_events w evs d) d))];
      all_events := all_events st1;
      filtered_events := filtered_events st1 |}).
Proof.
  intros Hext Hd (Hbuilt & Hopen1 & Hser & Hwrite1 & Hopen2 & Hwrite2).
  unfold main, bind at 1. rewrite Hext.
  unfold bind at 1, lift.
  rewrite (filter_events_by_date_parsed evs date d Hd).
  fold (day_events w evs d).
  unfold bind at 1. rewrite (for_event_add_built w _ st1 Hbuilt).
  unfold bind, open_for_writing, write_text, print, modify, lift.
  rewrite Hopen1, Hser, Hwrite1.
  rewrite (format_events_for_text_file_parsed _ _ _ d Hd).
  rewrite Hopen2, Hwrite2.
  reflexivity.
Qed.

(** X10: when the extraction returns, the date is accepted, and the
    world lets the two files be produced (every [Event] is built, the
    calendar serialises, both files can be opened in the output folder
    and written), the run ends normally: it has opened and written the
    calendar of the occurrences of the target date sorted by start, then
    opened and written the digest of those same occurrences, it prints
    one line for each, and it opens no further input. *)
Theorem main_writes_both_artifacts :
  forall (w : world) (ics_files : list string)
         (date timezone output : string) (st st1 : state)
         (evs : list event) (d : ymd) (serialized : string),
    extract_recurring_events_ics w ics_files timezone st = (Ok evs, st1) ->
    strptime_Ymd date = Ok d ->
    outputs_succeed w output (day_events w evs d)
      (digest_text w (day_events w evs d) d) serialized ->
    format_events_for_text_file w (day_events w evs d) date
      = Ok (digest_text w (day_events w evs d) d) /\
    fst (main w ics_files date timezone output st) = Ok tt /\
    written (snd (main w ics_files date timezone output st)) =
      written st
      ++ [(path_join output "combined_expanded.ics", Truncated);
          (path_join output "combined_expanded.ics", TextFile serialized);
          (path_join output "combined_events.txt", Truncated);
          (path_join output "combined_events.txt",
           TextFile (digest_text w (day_events w evs d) d))] /\
    console (snd (main w ics_files date timezone output st)) =
      console st1
      ++ [WrittenTo "Filtered calendar"
            (path_join output "combined_expanded.ics");
          WrittenTo "Formatted events"
            (path_join output "combined_events.txt")] /\
    opened (snd (main w ics_files date timezone output st)) = opened st1.
Proof.
  intros w ics_files date timezone output st st1 evs d serialized
    Hext Hd Hout.
  split; [apply (format_events_for_text_file_parsed _ _ _ d Hd)|].
  rewrite (main_run w ics_files date timezone output st st1 evs d serialized
             Hext Hd Hout).
  pose proof (extract_between_files w (fun _ => True) ics_files timezone st
                (emits_only_True w)) as (_ & Hwritten & _).
  rewrite Hext in Hwritten. simpl in Hwritten. simpl.
  rewrite Hwritten, <- !app_assoc. repeat split.
Qed.

Lemma main_writes_both_artifacts_witness :
  fst (main sample_world ["standup.ics"; "offsite.ics"] "2024-01-15"
         "UTC" "out" initial_state) = Ok tt /\
  written (snd (main sample_world ["standup.ics"; "offsite.ics"]
                  "2024-01-15" "UTC" "out" initial_state)) =
    [("out/combined_expanded.ics", Truncated);
     ("out/combined_expanded.ics",
      TextFile ("Team Offsite" ++ NEWLINE ++ "Standup")%string);
     ("out/combined_events.txt", Truncated);
     ("out/combined_events.txt",
      TextFile ("--- JANUARY 15 ---" ++ NEWLINE ++ "09:00 Standup"
                ++ NEWLINE ++ "Team Offsite")%string)].
Proof.
  destruct (main_writes_both_artifacts sample_world
              ["standup.ics"; "offsite.ics"] "2024-01-15" "UTC" "out"
              initial_state
              (snd (extract_recurring_events_ics sample_world
                      ["standup.ics"; "offsite.ics"] "UTC" initial_state))
              [standup_event; offsite_event]
              {| year := 2024; month := 1; day := 15 |}
              ("Team Offsite" ++ NEWLINE ++ "Standup")%string
              eq_refl eq_refl)
    as (_ & Hok & Hwritten & _).
  - repeat split. repeat constructor.
  - split; [exact Hok | exact Hwritten].
Defined.

Lemma filter_none {A} (f : A -> bool) (l : list A) :
  Forall (fun x => f x = false) l -> filter f l = [].
Proof.
  induction 1 as [|x l Hx Hl IH]; simpl; [reflexivity|]. now rewrite Hx.
Qed.

(** X11: when no extracted occurrence starts on the target date and the
    world lets the two files be produced (the empty calendar serialises,
    both files can be opened in the output folder and written), the run
    still ends normally and writes both: the serialisation of a calendar
    without occurrences and a digest that is the header line alone. *)
Theorem main_on_a_day_without_events :
  forall (w : world) (ics_files : list string)
         (date timezone output : string) (st st1 : state)
         (evs : list event) (d : ymd) (serialized : string),
    extract_recurring_events_ics w ics_files timezone st = (Ok evs, st1) ->
    strptime_Ymd date = Ok d ->
    Forall (fun e => dt_date (start_time e) <> ymd2ord d) evs ->
    outputs_succeed w output [] (header_line d) serialized ->
    fst (main w ics_files date timezone output st) = Ok tt /\
    written (snd (main w ics_files date timezone output st)) =
      written st
      ++ [(path_join output "combined_expanded.ics", Truncated);
          (path_join output "combined_expanded.ics", TextFile serialized);
          (path_join output "combined_events.txt", Truncated);
          (path_join output "combined_events.txt",
           TextFile (header_line d))].
Proof.
  intros w ics_files date timezone output st st1 evs d serialized
    Hext Hd Hnone Hout.
  assert (Hday : day_events w evs d = []).
  { unfold day_events. rewrite filter_none; [reflexivity|].
    eapply Forall_impl; [|exact Hnone].
    intros e He. unfold on_day. now apply Z.eqb_neq. }
  assert (Hdigest : digest_text w [] d = header_line d).
  { unfold digest_text. cbn. now rewrite append_nil_r. }
  rewrite (main_run w ics_files date timezone output st st1 evs d serialized
             Hext Hd); [|now rewrite Hday, Hdigest].
  pose proof (extract_between_files w (fun _ => True) ics_files timezone st
                (emits_only_True w)) as (_ & Hwritten & _).
  rewrite Hext in Hwritten. simpl in Hwritten. simpl.
  now rewrite Hday, Hdigest, Hwritten, <- !app_assoc.
Qed.

Lemma main_on_a_day_without_events_witness :
  fst (main sample_world ["standup.ics"] "2024-03-01" "UTC" "out"
         initial_state) = Ok tt /\
  written (snd (main sample_world ["standup.ics"] "2024-03-01" "UTC" "out"
                  initial_state)) =
    [("out/combined_expanded.ics", Truncated);
     ("out/combined_expanded.ics", TextFile "");
     ("out/combined_events.txt", Truncated);
     ("out/combined_events.txt",
      TextFile ("--- MARCH 01 ---" ++ NEWLINE)%string)].
Proof.
  refine (main_on_a_day_without_events sample_world ["standup.ics"]
            "2024-03-01" "UTC" "out" initial_state
            (snd (extract_recurring_events_ics sample_world ["standup.ics"]
                    "UTC" initial_state))
            [standup_event] {| year := 2024; month := 3; day := 1 |} ""
            eq_refl eq_refl _ _).
  - constructor; [|constructor]. vm_compute. discriminate.
  - repeat split. constructor.
Defined.

(** ** Files whose expansion starts *)

Lemma process_file_of_file_run (w : world) (tzname path : string)
    (st : state) (run : list event * result (list step)) :
  file_run w tzname path = Some run ->
  process_file w tzname path st =
  (Ok tt,
   {| console :=
        match snd run with
        | Ok _ => console st
        | Raise e => console st ++ [warning_line path e]
        end;
      alarm := None;
      opened := opened st ++ [path];
      written := written st;
      all_events := all_events st ++ fst run;
      filtered_events := Some (fst run) |}).
Proof.
  unfold file_run.
  destruct (open_read w path) as [data|] eqn:H1; [|discriminate].
  destruct (from_ical w data) as [cal|] eqn:H2; [|discriminate].
  destruct (pytz_timezone w tzname) as [tz|] eqn:H3; [|discriminate].
  destruct (recurring_events_after w cal (current_date_in w tz))
    as [query|] eqn:H4; [|discriminate].
  intros [= <-].
  exact (process_file_expansion_starts w tzname path data cal tz st query
           H1 H2 H3 H4).
Qed.

Lemma for_each_file_of_file_runs (w : world) (tzname : string)
    (paths : list string) :
  Forall (fun p => file_run w tzname p <> None) paths ->
  forall st,
    fst (for_each_file w tzname paths st) = Ok tt /\
    all_events (snd (for_each_file w tzname paths st)) =
      all_events st ++ flat_map (file_kept w tzname) paths /\
    console (snd (for_each_file w tzname paths st)) =
      console st ++ flat_map (file_warnings w tzname) paths /\
    opened (snd (for_each_file w tzname paths st)) = opened st ++ paths.
Proof.
  induction 1 as [|path paths Hrun Hrest IH]; intros st.
  - simpl. now rewrite !app_nil_r.
  - destruct (file_run w tzname path) as [run|] eqn:Hfile; [|contradiction].
    cbn [for_each_file flat_map]. unfold bind.
    rewrite (process_file_of_file_run w tzname path st run Hfile).
    destruct (IH {| console :=
                      match snd run with
                      | Ok _ => console st
                      | Raise e => console st ++ [warning_line path e]
                      end;
                    alarm := None;
                    opened := opened st ++ [path];
                    written := written st;
                    all_events := all_events st ++ fst run;
                    filtered_events := Some (fst run) |})
      as (Hok & Hall & Hcon & Hop).
    cbn [all_events console opened] in *.
    unfold file_kept, file_warnings. rewrite Hfile.
    destruct run as [kept ending]. cbn [fst snd] in *.
    split; [exact Hok|]. split; [now rewrite Hall, <- app_assoc|].
    split; [|now rewrite Hop, <- app_assoc].
    rewrite Hcon. destruct ending; [reflexivity | now rewrite <- app_assoc].
Qed.

(** X12: when every input file loads and its expansion starts, the
    extraction returns, in the order of the files, what the loop kept of
    each file's own sequence; a file whose loop was broken by a timeout
    or another exception contributes what it had kept until then and one
    warning, and every file is opened once. *)
Theorem extract_concatenates_per_file :
  forall (w : world) (paths : list string) (tzname : string) (st : state),
    Forall (fun p => file_run w (effective_timezone tzname) p <> None)
      paths ->
    fst (extract_recurring_events_ics w paths tzname st) =
      Ok (flat_map (file_kept w (effective_timezone tzname)) paths) /\
    console (snd (extract_recurring_events_ics w paths tzname st)) =
      console st
      ++ flat_map (file_warnings w (effective_timezone tzname)) paths /\
    opened (snd (extract_recurring_events_ics w paths tzname st)) =
      opened st ++ paths.
Proof.
  intros w paths tzname st Hruns.
  rewrite extract_recurring_events_ics_run.
  fold (effective_timezone tzname).
  destruct (for_each_file_of_file_runs w (effective_timezone tzname) paths
              Hruns (with_filtered_events (with_all_events st []) None))
    as (Hok & Hall & Hcon & Hop).
  destruct (for_each_file _ _ _ _) as [[[]|e] st1]; simpl in *;
    [|discriminate].
  now rewrite Hall, Hcon, Hop.
Qed.

Lemma extract_concatenates_per_file_witness :
  fst (extract_recurring_events_ics sample_world
         ["offsite.ics"; "standup.ics"] "UTC" initial_state) =
    Ok [offsite_event; standup_event] /\
  console (snd (extract_recurring_events_ics sample_world
                  ["offsite.ics"; "standup.ics"] "UTC" initial_state)) = []
  /\
  opened (snd (extract_recurring_events_ics sample_world
                 ["offsite.ics"; "standup.ics"] "UTC" initial_state)) =
    ["offsite.ics"; "standup.ics"].
Proof.
  apply (extract_concatenates_per_file sample_world
           ["offsite.ics"; "standup.ics"] "UTC" initial_state).
  repeat constructor; discriminate.
Defined.

(** ** The alarm *)

(** X13: once a file has been read and parsed and the zone resolved, the
    alarm is cancelled when [process_file] is left, whether the
    expansion raised, timed out or ran to its end and whatever alarm was
    pending before; and an extraction entered without a pending alarm
    leaves none pending, however it ends. *)
Theorem alarm_cancelled_on_every_path :
  forall (w : world) (tzname : string) (st : state),
    (forall path data cal tz,
        open_read w path = Ok data ->
        from_ical w data = Ok cal ->
        pytz_timezone w tzname = Ok tz ->
        alarm (snd (process_file w tzname path st)) = None) /\
    (forall paths,
        alarm st = None ->
        alarm (snd (extract_recurring_events_ics w paths tzname st)) = None).
Proof.
  intros w tzname st. split.
  - intros path data cal tz H1 H2 H3.
    destruct (recurring_events_after w cal (current_date_in w tz))
      as [query|e] eqn:H4.
    + now rewrite (process_file_expansion_starts w tzname path data cal tz
                     st query H1 H2 H3 H4).
    + rewrite (process_file_expansion_raises w tzname path data cal tz st e
                 H1 H2 H3 H4).
      now destruct (filtered_events st).
  - intros paths Halarm.
    pose proof (extract_between_files w (fun _ => True) paths tzname st
                  (emits_only_True w)) as ([H|H] & _); congruence.
Qed.

Lemma alarm_cancelled_on_every_path_witness :
  alarm (snd (process_file sample_world "UTC" "huge.ics"
                (with_alarm initial_state (Some 60)))) = None /\
  alarm (snd (extract_recurring_events_ics sample_world
                ["week.ics"; "huge.ics"; "missing.ics"] "UTC"
                initial_state)) = None.
Proof.
  destruct (alarm_cancelled_on_every_path sample_world "UTC"
              (with_alarm initial_state (Some 60))) as [Hfile _].
  destruct (alarm_cancelled_on_every_path sample_world "UTC" initial_state)
    as [_ Hrun].
  split.
  - exact (Hfile "huge.ics" "huge.ics" [] tz_utc eq_refl eq_refl eq_refl).
  - exact (Hrun ["week.ics"; "huge.ics"; "missing.ics"] eq_refl).
Defined.

(** ** A failure inside the loop *)

Lemma kept_of_query_fails (w : world) (tz : tzinfo) (end_date : Z)
    (pre : list step) (s : step) (post : list step) (e : exn) :
  Forall (in_window w tz end_date) pre ->
  fails_with w tz s e ->
  kept_of_query w tz end_date (pre ++ s :: post) =
  (occurrences w tz pre, Raise e).
Proof.
  intros Hpre Hfail.
  induction Hpre as [|x pre [ev [Hocc Hdate]] Hpre IH]; simpl.
  - destruct Hfail as [->|[ev [-> Hn]]]; simpl; [reflexivity|].
    now rewrite Hn.
  - destruct x as [ev0|x]; [|discriminate]. simpl in *.
    destruct (normalize w tz ev0) as [[s0 e0]|]; [|discriminate].
    injection Hocc as <-. simpl in Hdate.
    destruct (Z.ltb_spec end_date (dt_date s0)); [lia|].
    now rewrite IH.
Qed.

(** X14: when the occurrences before an element are inside the window
    and that element fails, by a timeout or another exception while
    waiting for it or by an exception of its normalisation (a missing
    [DTSTART], a datetime start with a date end), the file ends there
    without ending the run: the occurrences before it are added to the
    result, nothing after it is, one warning naming the file is printed
    and the alarm is cancelled. *)
Theorem failure_inside_loop_keeps_partial_results :
  forall (w : world) (tzname path data : string) (cal : calendar)
         (tz : tzinfo) (st : state)
         (pre : list step) (s : step) (post : list step) (e : exn),
    open_read w path = Ok data ->
    from_ical w data = Ok cal ->
    pytz_timezone w tzname = Ok tz ->
    recurring_events_after w cal (current_date_in w tz)
      = Ok (pre ++ s :: post) ->
    Forall (in_window w tz (current_date_in w tz + DAYS_TO_INCLUDE)) pre ->
    fails_with w tz s e ->
    process_file w tzname path st =
    (Ok tt,
     {| console := console st ++ [warning_line path e];
        alarm := None;
        opened := opened st ++ [path];
        written := written st;
        all_events := all_events st ++ occurrences w tz pre;
        filtered_events := Some (occurrences w tz pre) |}).
Proof.
  intros w tzname path data cal tz st pre s post e H1 H2 H3 H4 Hpre Hfail.
  rewrite (process_file_expansion_starts w tzname path data cal tz st _
             H1 H2 H3 H4).
  now rewrite (kept_of_query_fails w tz _ pre s post e Hpre Hfail).
Qed.

Lemma failure_inside_loop_keeps_partial_results_witness :
  process_file slow_world "UTC" "standup.ics" initial_state =
  (Ok tt,
   {| console := [TimeoutWarning "standup.ics"];
      alarm := None;
      opened := ["standup.ics"];
      written := [];
      all_events := [standup_event];
      filtered_events := Some [standup_event] |}).
Proof.
  apply (failure_inside_loop_keeps_partial_results slow_world "UTC"
           "standup.ics" "standup.ics" [standup] tz_utc initial_state
           [Yield standup] (Throw timeout_handler) [Yield retro]
           timeout_handler); try reflexivity.
  - repeat constructor. exists standup_event.
    split; [reflexivity|]. vm_compute. discriminate.
  - now left.
Defined.

(** ** An unknown zone *)

(** X15: a zone name the database does not know is not noticed before
    the first file: that file is read and parsed, then the exception of
    [pytz.timezone] leaves the extraction, outside the guarded block: no
    alarm is set, no warning is printed, nothing is returned and no
    later file is opened.  The empty name stands for the default zone. *)
Theorem unknown_timezone_ends_at_first_file :
  forall (w : world) (path : string) (rest : list string)
         (tzname data : string) (cal : calendar) (st : state) (e : exn),
    open_read w path = Ok data ->
    from_ical w data = Ok cal ->
    pytz_timezone w (effective_timezone tzname) = Raise e ->
    extract_recurring_events_ics w (path :: rest) tzname st =
    (Raise e,
     {| console := console st;
        alarm := alarm st;
        opened := opened st ++ [path];
        written := written st;
        all_events := [];
        filtered_events := None |}).
Proof.
  intros w path rest tzname data cal st e H1 H2 H3.
  rewrite extract_recurring_events_ics_run.
  fold (effective_timezone tzname).
  cbn [for_each_file]. unfold bind.
  now rewrite (process_file_unknown_zone w _ path data cal _ e H1 H2 H3).
Qed.

Lemma unknown_timezone_ends_at_first_file_witness :
  extract_recurring_events_ics sample_world ["standup.ics"; "offsite.ics"]
    "Mars/Olympus" initial_state =
  (Raise (UnknownTimeZoneError "Mars/Olympus"),
   {| console := []; alarm := None; opened := ["standup.ics"];
      written := []; all_events := []; filtered_events := None |}).
Proof.
  exact (unknown_timezone_ends_at_first_file sample_world "standup.ics"
           ["offsite.ics"] "Mars/Olympus" "standup.ics" [standup]
           initial_state (UnknownTimeZoneError "Mars/Olympus")
           eq_refl eq_refl eq_refl).
Defined.

(** ** What every returned occurrence satisfies *)

Lemma kept_of_query_in_window (w : world) (tz : tzinfo) (end_date : Z)
    (query : list step) :
  Forall (fun e => dt_date (start_time e) <= end_date)
    (fst (kept_of_query w tz end_date query)).
Proof.
  induction query as [|[ev|x] rest IH]; simpl; try constructor.
  destruct (normalize w tz ev) as [[s0 e0]|x]; simpl; try constructor.
  destruct (Z.ltb_spec end_date (dt_date s0)); simpl; try constructor.
  destruct (kept_of_query w tz end_date rest) as [l r]; simpl in *.
  constructor; [simpl; lia | exact IH].
Qed.

Lemma process_file_locals_in_window (w : world) (tzname path : string)
    (tz : tzinfo) :
  pytz_timezone w tzname = Ok tz ->
  preserves
    (locals_all (fun e => dt_date (start_time e)
                          <= current_date_in w tz + DAYS_TO_INCLUDE))
    (process_file w tzname path).
Proof.
  intros H3 st (Hall & Hfiltered).
  destruct (open_read w path) as [data|e] eqn:H1.
  2:{ rewrite (process_file_unreadable w tzname path st e H1).
      split; assumption. }
  destruct (from_ical w data) as [cal|e] eqn:H2.
  2:{ rewrite (process_file_unparsable w tzname path data st e H1 H2).
      split; assumption. }
  destruct (recurring_events_after w cal (current_date_in w tz))
    as [query|e] eqn:H4.
  - rewrite (process_file_expansion_starts w tzname path data cal tz st query
               H1 H2 H3 H4).
    pose proof (kept_of_query_in_window w tz
                  (current_date_in w tz + DAYS_TO_INCLUDE) query) as Hkept.
    split; simpl.
    + apply Forall_app. now split.
    + intros l [= <-]. exact Hkept.
  - rewrite (process_file_expansion_raises w tzname path data cal tz st e
               H1 H2 H3 H4).
    destruct (filtered_events st) as [l|] eqn:Hf; split; simpl; auto.
    + apply Forall_app. split; [assumption | now apply Hfiltered].
    + rewrite Hf. exact Hfiltered.
    + rewrite Hf. exact Hfiltered.
Qed.

Lemma for_each_file_locals_in_window (w : world) (tzname : string)
    (tz : tzinfo) (paths : list string) :
  pytz_timezone w tzname = Ok tz ->
  preserves
    (locals_all (fun e => dt_date (start_time e)
                          <= current_date_in w tz + DAYS_TO_INCLUDE))
    (for_each_file w tzname paths).
Proof.
  intros H3. induction paths as [|path rest IH]; intros st Hst; simpl.
  - exact Hst.
  - unfold bind.
    pose proof (process_file_locals_in_window w tzname path tz H3 st Hst)
      as H.
    destruct (process_file w tzname path st) as [[[]|e] st1]; simpl in *.
    + now apply IH.
    + exact H.
Qed.

(** X16: no occurrence returned by the extraction starts, in its own
    zone, on a date after the day that follows the current date of the
    target zone: the look-ahead of [DAYS_TO_INCLUDE] is an upper bound
    on everything returned, also across failed files. *)
Theorem returned_occurrences_in_window :
  forall (w : world) (paths : list string) (tzname : string)
         (tz : tzinfo) (st st' : state) (evs : list event),
    pytz_timezone w (effective_timezone tzname) = Ok tz ->
    extract_recurring_events_ics w paths tzname st = (Ok evs, st') ->
    Forall (fun e => dt_date (start_time e) <= current_date_in w tz + 1) evs.
Proof.
  intros w paths tzname tz st st' evs H3 Hrun.
  rewrite extract_recurring_events_ics_run in Hrun.
  fold (effective_timezone tzname) in Hrun.
  pose proof (for_each_file_locals_in_window w (effective_timezone tzname)
                tz paths H3
                (with_filtered_events (with_all_events st []) None)) as H.
  destruct (for_each_file _ _ _ _) as [[[]|e] st1]; [|discriminate].
  injection Hrun as <- <-.
  destruct H as [Hall _]; [split; simpl; [constructor | discriminate]|].
  exact Hall.
Qed.

Lemma returned_occurrences_in_window_witness :
  Forall (fun e => dt_date (start_time e) <= today + 1)
    [standup_event; retro_event].
Proof.
  apply (returned_occurrences_in_window sample_world ["week.ics"] "UTC"
           tz_utc initial_state
           (snd (extract_recurring_events_ics sample_world ["week.ics"] "UTC"
                   initial_state))
           [standup_event; retro_event]); reflexivity.
Defined.

Lemma normalize_start_aware (w : world) (tz : tzinfo) (ev : vevent)
    (s e : datetime) :
  normalize w tz ev = Ok (s, e) -> is_aware s = true.
Proof.
  unfold normalize.
  destruct (DTSTART ev) as [[d|t]|], (DTEND ev) as [[d2|t2]|];
    simpl; intros [= <- <-] || intros [=]; reflexivity.
Qed.

(** X17: whatever the expansion yields, the start of every occurrence
    the extraction returns carries a UTC offset, so the sort on the start
    time never compares a naive with an aware datetime. *)
Theorem returned_starts_are_aware :
  forall (w : world) (paths : list string) (tzname : string)
         (st st' : state) (evs : list event),
    extract_recurring_events_ics w paths tzname st = (Ok evs, st') ->
    Forall (fun e => is_aware (start_time e) = true) evs.
Proof.
  intros w paths tzname st st' evs Hrun.
  assert (Hw : emits_only w (fun e => is_aware (start_time e) = true)).
  { intros cal d items ev tz s e _ _ Hn. simpl.
    exact (normalize_start_aware w tz ev s e Hn). }
  pose proof (extract_between_files w _ paths tzname st Hw)
    as (_ & _ & Hall & _).
  rewrite Hrun in Hall. simpl in Hall.
  rewrite extract_recurring_events_ics_run in Hrun.
  destruct (for_each_file _ _ _ _) as [[[]|e] st1]; [|discriminate].
  now injection Hrun as <- <-.
Qed.

Lemma returned_starts_are_aware_witness :
  Forall (fun e => is_aware (start_time e) = true) [backwards_event].
Proof.
  exact (returned_starts_are_aware sample_world ["backwards.ics"] "UTC"
           initial_state
           (snd (extract_recurring_events_ics sample_world ["backwards.ics"]
                   "UTC" initial_state))
           [backwards_event] eq_refl).
Defined.

(** ** Cropping a poem *)

Lemma split_lines_nonempty (s : string) : split_lines s <> [].
Proof.
  induction s as [|c r IH]; simpl; [discriminate|].
  destruct (Ascii.eqb c LF); [discriminate|].
  destruct (split_lines r); discriminate.
Qed.

Lemma join_cons (sep x : string) (l : list string) :
  l <> [] -> join sep (x :: l) = (x ++ sep ++ join sep l)%string.
Proof. destruct l; [contradiction | reflexivity]. Qed.

Lemma join_split_lines (s : string) : join NEWLINE (split_lines s) = s.
Proof.
  induction s as [|c r IH]; [reflexivity|].
  cbn [split_lines].
  destruct (Ascii.eqb_spec c LF) as [->|Hc].
  - rewrite join_cons by apply split_lines_nonempty. now rewrite IH.
  - pose proof (split_lines_nonempty r) as Hne.
    destruct (split_lines r) as [|line lines]; [contradiction|].
    destruct lines as [|l2 lines].
    + simpl in *. now rewrite IH.
    + rewrite join_cons by discriminate.
      rewrite join_cons in IH by discriminate.
      cbn [String.append]. now rewrite IH.
Qed.

Lemma split_lines_no_newline (s : string) :
  has_newline s = false -> split_lines s = [s].
Proof.
  induction s as [|c r IH]; [reflexivity|]. simpl.
  destruct (Ascii.eqb c LF); [discriminate|]. simpl.
  intros H. now rewrite (IH H).
Qed.

Lemma split_lines_line_then (a rest : string) :
  has_newline a = false ->
  split_lines (a ++ NEWLINE ++ rest) = a :: split_lines rest.
Proof.
  induction a as [|c r IH]; intros Ha.
  - reflexivity.
  - simpl in Ha. cbn [String.append split_lines].
    destruct (Ascii.eqb c LF); [discriminate|]. simpl in Ha.
    now rewrite (IH Ha).
Qed.

Lemma split_lines_join (l : list string) :
  l <> [] ->
  Forall (fun line => has_newline line = false) l ->
  split_lines (join NEWLINE l) = l.
Proof.
  intros Hne Hall. induction Hall as [|x l Hx Hl IH]; [contradiction|].
  destruct l as [|y l].
  - simpl. now apply split_lines_no_newline.
  - rewrite join_cons by discriminate.
    rewrite (split_lines_line_then x _ Hx).
    now rewrite IH by discriminate.
Qed.

Lemma split_lines_pieces (s : string) :
  Forall (fun line => has_newline line = false) (split_lines s).
Proof.
  induction s as [|c r IH]; simpl; [repeat constructor|].
  destruct (Ascii.eqb c LF) eqn:Hc; [now constructor|].
  destruct (split_lines r) as [|line lines]; [repeat constructor; simpl|].
  - now rewrite Hc.
  - inversion IH as [|? ? Hline Hlines]; subst.
    constructor; [simpl; now rewrite Hc, Hline | exact Hlines].
Qed.

Lemma substring_0_no_newline (s : string) (k : nat) :
  has_newline s = false -> has_newline (substring 0 k s) = false.
Proof.
  revert k. induction s as [|c r IH]; intros [|k] H; simpl in *; auto.
  apply orb_false_iff in H as [Hc Hr]. rewrite Hc. simpl. now apply IH.
Qed.

Lemma py_slice_to_no_newline (s : string) (n : Z) :
  has_newline s = false -> has_newline (py_slice_to s n) = false.
Proof. intros H. unfold py_slice_to. now apply substring_0_no_newline. Qed.

Lemma substring_0_all (s : string) (k : nat) :
  (String.length s <= k)%nat -> substring 0 k s = s.
Proof.
  revert k. induction s as [|c r IH]; intros [|k] H; simpl in *;
    try reflexivity; try lia.
  now rewrite IH by lia.
Qed.

Lemma py_slice_to_short (s : string) (n : Z) :
  Z.of_nat (String.length s) <= n -> py_slice_to s n = s.
Proof.
  intros H. unfold py_slice_to.
  destruct (Z.ltb_spec n 0); [lia|].
  apply substring_0_all. lia.
Qed.

Lemma py_slice_to_bound (s : string) (n : Z) :
  0 <= n -> Z.of_nat (String.length (py_slice_to s n)) <= n.
Proof.
  intros H. pose proof (py_slice_to_length s (Z.to_nat n)) as Hlen.
  rewrite Z2Nat.id in Hlen by exact H. lia.
Qed.

(** The loop keeps the lines with an index below [max_lines], each cut. *)
Lemma crop_lines_firstn (lines : list string) (max_lines max_chars : Z) :
  forall (i : Z) (cropped : list string),
    crop_lines i lines max_lines max_chars cropped =
    cropped
    ++ map (fun line => py_slice_to line max_chars)
         (firstn (Z.to_nat (max_lines - i)) lines).
Proof.
  induction lines as [|line rest IH]; intros i cropped; simpl.
  - now rewrite firstn_nil, app_nil_r.
  - destruct (Z.leb_spec max_lines i) as [Hle|Hlt].
    + replace (Z.to_nat (max_lines - i)) with 0%nat by lia.
      now rewrite app_nil_r.
    + rewrite IH, <- app_assoc.
      replace (Z.to_nat (max_lines - i))
        with (S (Z.to_nat (max_lines - (i + 1)))) by lia.
      reflexivity.
Qed.

Lemma Forall_first_n {A} (P : A -> Prop) (n : nat) (l : list A) :
  Forall P l -> Forall P (firstn n l).
Proof.
  intros H. revert n. induction H as [|x l Hx Hl IH]; intros [|n]; simpl;
    constructor; auto.
Qed.

Lemma crop_string_lines (text : string) (max_lines max_chars : Z) :
  1 <= max_lines ->
  split_lines (crop_string text max_lines max_chars) =
  map (fun line => py_slice_to line max_chars)
    (firstn (Z.to_nat max_lines) (split_lines text)).
Proof.
  intros Hml. unfold crop_string.
  rewrite crop_lines_firstn, Z.sub_0_r. cbn [app].
  apply split_lines_join.
  - pose proof (split_lines_nonempty text) as Hne.
    destruct (split_lines text) as [|l ls]; [contradiction|].
    replace (Z.to_nat max_lines) with (S (Z.to_nat (max_lines - 1))) by lia.
    discriminate.
  - apply Forall_map.
    eapply Forall_impl;
      [|apply Forall_first_n, split_lines_pieces].
    intros line Hline. now apply py_slice_to_no_newline.
Qed.

Lemma crop_string_within_limits (text : string) (max_lines max_chars : Z) :
  1 <= max_lines -> 0 <= max_chars ->
  within_limits (crop_string text max_lines max_chars) max_lines max_chars.
Proof.
  intros Hml Hmc. unfold within_limits.
  rewrite (crop_string_lines text max_lines max_chars Hml). split.
  - rewrite length_map, length_firstn. lia.
  - apply Forall_map, Forall_forall. intros line _.
    now apply py_slice_to_bound.
Qed.

Lemma crop_string_fixed (text : string) (max_lines max_chars : Z) :
  within_limits text max_lines max_chars ->
  crop_string text max_lines max_chars = text.
Proof.
  intros [Hlines Hchars]. unfold crop_string.
  rewrite crop_lines_firstn, Z.sub_0_r. cbn [app].
  rewrite firstn_all2 by lia.
  rewrite <- (join_split_lines text) at 2. f_equal.
  induction Hchars as [|line lines Hline Hrest IH]; [reflexivity|].
  simpl in *. rewrite (py_slice_to_short line max_chars Hline).
  f_equal. apply IH. lia.
Qed.

(** X18: with room for at least one line and a non-negative width, the
    text [crop_string] returns has at most [max_lines] lines and none of
    them has more than [max_chars_per_line] characters; its lines are the
    first lines of the input, each cut to the width. *)
Theorem crop_string_respects_limits :
  forall (text : string) (max_lines max_chars_per_line : Z),
    1 <= max_lines ->
    0 <= max_chars_per_line ->
    within_limits (crop_string text max_lines max_chars_per_line)
      max_lines max_chars_per_line /\
    split_lines (crop_string text max_lines max_chars_per_line) =
      map (fun line => py_slice_to line max_chars_per_line)
        (firstn (Z.to_nat max_lines) (split_lines text)).
Proof.
  intros text max_lines max_chars Hml Hmc. split.
  - now apply crop_string_within_limits.
  - now apply crop_string_lines.
Qed.

Lemma crop_string_respects_limits_witness :
  within_limits
    (crop_string ("Roses are red" ++ NEWLINE ++ "violets" ++ NEWLINE ++ "x")
       2 5) 2 5 /\
  split_lines
    (crop_string ("Roses are red" ++ NEWLINE ++ "violets" ++ NEWLINE ++ "x")
       2 5) = ["Roses"; "viole"].
Proof.
  apply (crop_string_respects_limits
           ("Roses are red" ++ NEWLINE ++ "violets" ++ NEWLINE ++ "x") 2 5);
    lia.
Defined.

(** X19: a text that already has no more than [max_lines] lines, none
    longer than [max_chars_per_line], comes back from [crop_string]
    unchanged, trailing newline and empty lines included. *)
Theorem crop_string_keeps_a_fitting_text :
  forall (text : string) (max_lines max_chars_per_line : Z),
    within_limits text max_lines max_chars_per_line ->
    crop_string text max_lines max_chars_per_line = text.
Proof. exact crop_string_fixed. Qed.

Lemma crop_string_keeps_a_fitting_text_witness :
  crop_string ("News at ten" ++ NEWLINE ++ NEWLINE ++ "all is well"
               ++ NEWLINE) 4 22
  = ("News at ten" ++ NEWLINE ++ NEWLINE ++ "all is well" ++ NEWLINE)%string.
Proof.
  apply (crop_string_keeps_a_fitting_text
           ("News at ten" ++ NEWLINE ++ NEWLINE ++ "all is well" ++ NEWLINE)
           4 22).
  split; [vm_compute; discriminate|].
  repeat constructor; vm_compute; discriminate.
Defined.

(** X20: cropping is idempotent for limits that leave room for a line,
    and with no room for a line, [max_lines] zero or negative, the
    result is the empty text whatever the input. *)
Theorem crop_string_idempotent :
  forall (text : string) (max_lines max_chars_per_line : Z),
    (1 <= max_lines -> 0 <= max_chars_per_line ->
     crop_string (crop_string text max_lines max_chars_per_line)
       max_lines max_chars_per_line
     = crop_string text max_lines max_chars_per_line) /\
    (max_lines <= 0 ->
     crop_string text max_lines max_chars_per_line = "").
Proof.
  intros text max_lines max_chars. split.
  - intros Hml Hmc.
    apply crop_string_fixed. now apply crop_string_within_limits.
  - intros Hml. unfold crop_string. rewrite crop_lines_firstn.
    replace (Z.to_nat (max_lines - 0)) with 0%nat by lia. reflexivity.
Qed.

Lemma crop_string_idempotent_witness :
  crop_string (crop_string ("a long first line" ++ NEWLINE ++ "b") 1 6) 1 6
  = crop_string ("a long first line" ++ NEWLINE ++ "b") 1 6 /\
  crop_string "anything" 0 22 = "".
Proof.
  destruct (crop_string_idempotent ("a long first line" ++ NEWLINE ++ "b")
              1 6) as [Hidem _].
  destruct (crop_string_idempotent "anything" 0 22) as [_ Hnone].
  split; [apply Hidem; lia | apply Hnone; lia].
Defined.

(** ** Days the calendar does not have *)

Lemma re_Ymd_fields (d : ymd) :
  1 <= year d <= 9999 -> 1 <= month d <= 12 -> 1 <= day d <= 31 ->
  re_Ymd (iso_date d) = Some (year d, month d, day d, "").
Proof.
  intros Hy Hm Hd. unfold re_Ymd, iso_date.
  rewrite re_Y_four_digits by lia.
  cbn [String.append re_char Ascii.eqb Bool.eqb].
  apply re_alt_month; [exact Hm|].
  cbn [String.append re_char Ascii.eqb Bool.eqb].
  rewrite <- (append_nil_r (two_digits (day d))).
  apply re_alt_day; [lia | reflexivity].
Qed.

Lemma days_in_month_ge_28 (y m : Z) :
  1 <= m <= 12 -> 28 <= days_in_month y m.
Proof.
  intros Hm. unfold days_in_month.
  destruct ((m =? 2) && is_leap y); [lia|].
  enum_from m 1 12%nat ltac:(simpl; lia).
Qed.

(** X21: a well-formed string naming a day the month does not have, the
    30th of February or the 29th outside a leap year, is rejected with a
    [ValueError], like a malformed one. *)
Theorem strptime_Ymd_rejects_missing_days :
  forall (d : ymd),
    1 <= year d <= 9999 ->
    1 <= month d <= 12 ->
    days_in_month (year d) (month d) < day d <= 31 ->
    exists msg, strptime_Ymd (iso_date d) = Raise (ValueError msg).
Proof.
  intros d Hy Hm Hd.
  pose proof (days_in_month_ge_28 (year d) (month d) Hm) as H28.
  assert (Hday : 1 <= day d <= 31) by lia.
  unfold strptime_Ymd. rewrite (re_Ymd_fields d Hy Hm Hday). simpl.
  destruct (Z.ltb_spec (year d) 1); [lia|].
  destruct (Z.ltb_spec (days_in_month (year d) (month d)) (day d)); [|lia].
  simpl. now eexists.
Qed.

Lemma strptime_Ymd_rejects_missing_days_witness :
  exists msg, strptime_Ymd "2023-02-29" = Raise (ValueError msg).
Proof.
  apply (strptime_Ymd_rejects_missing_days
           {| year := 2023; month := 2; day := 29 |});
    simpl; [lia | lia |].
  vm_compute. intuition discriminate.
Defined.

(** ** The invariant of the data model on what is returned *)




